(** * oms_tool: the CSV row filter and the unique-value extractor

    A shallow embedding of [tools/db_filter_by_sku/filter_by_sku.py] and
    [tools/unique_values/unique_values.py].

    Conventions of the embedding.
    - Python [str] is [string]; [strip] and [lower] are given on the ASCII
      range (the proofs below never look inside them, so every statement
      that quantifies over strings is independent of that choice).
    - Python [set] of [str] is [gset string], [dict] is [gmap].
    - Python [int] is [Z].
    - The [csv] module is a library: a file is given by what [csv.reader]
      yields on it for a delimiter (the records, and whether the reader
      ends by raising [csv.Error]), by what iterating the file yields (its
      lines), and by what [csv.Sniffer] answers on its first 4096
      characters.
    - Exceptions and the two observable effects of a run (records pulled
      from the input reader, records written to the output file) are
      threaded through a state-and-error monad. *)

From Stdlib Require Import ZArith Ascii String List Permutation Sorted.
From stdpp Require Import base option list gmap sets strings.

Local Open Scope string_scope.
Local Open Scope Z_scope.

#[local] Set Warnings "-clear-no-such-hyp".

(** ** Python strings *)

Module Py.

(** characters removed by [str.strip()]: TAB, LF, VT, FF, CR,
    FS, GS, RS, US and the space. *)
Definition is_space (c : ascii) : bool :=
  let n := N_of_ascii c in
  (((9 <=? n) && (n <=? 13)) || ((28 <=? n) && (n <=? 32)))%N.

Fixpoint lstrip (s : string) : string :=
  match s with
  | EmptyString => EmptyString
  | String c s' => if is_space c then lstrip s' else s
  end.

Fixpoint rstrip (s : string) : string :=
  match s with
  | EmptyString => EmptyString
  | String c s' =>
      match rstrip s' with
      | EmptyString => if is_space c then EmptyString else String c EmptyString
      | r => String c r
      end
  end.

Definition strip (s : string) : string := rstrip (lstrip s).

Definition lower_char (c : ascii) : ascii :=
  let n := N_of_ascii c in
  if ((65 <=? n) && (n <=? 90))%N then ascii_of_N (n + 32) else c.

Fixpoint lower (s : string) : string :=
  match s with
  | EmptyString => EmptyString
  | String c s' => String (lower_char c) (lower s')
  end.

(** truth value of a string: [if s:] *)
Definition truthy (s : string) : bool :=
  match s with EmptyString => false | _ => true end.

(** [s.startswith(p)] *)
Definition startswith (s p : string) : bool := String.prefix p s.

(** [o or ""] for [o] a string or [None] *)
Definition or_empty (o : option string) : string :=
  match o with
  | Some s => if truthy s then s else ""
  | None => ""
  end.

(** [s.split(sep)] for a one-character separator *)
Fixpoint split (sep : ascii) (s : string) : list string :=
  match s with
  | EmptyString => [EmptyString]
  | String c s' =>
      if Ascii.eqb c sep then EmptyString :: split sep s'
      else match split sep s' with
           | w :: ws => String c w :: ws
           | [] => [String c EmptyString]
           end
  end.

(** [s.lower() if case_insensitive else s] *)
Definition fold_case (case_insensitive : bool) (s : string) : string :=
  if case_insensitive then lower s else s.

(** [x in l] for a list *)
Definition in_list (x : string) (l : list string) : bool :=
  bool_decide (x ∈ l).

(** [x in s] for a set *)
Definition in_set (x : string) (s : gset string) : bool :=
  bool_decide (x ∈ s).

End Py.

(** ** Exceptions, results and the effect monad *)

Inductive exn : Type :=
  | FileNotFoundError (path : string)
  | ValueError (column : string) (found : option (list string))
  | CsvError
  | KeyError (key : string).

(** a computation that returns or raises *)
Definition res (A : Type) : Type := exn + A.

(** The effects of one run: how many records were pulled from the input
    reader (the header included), and the output file: [None] while it
    has not been opened, [Some recs] once it was opened for writing and
    [recs] were written. *)
Record st : Type := mk_st {
  pulled : nat;
  out_file : option (list (list string))
}.

Definition st0 : st := {| pulled := 0; out_file := None |}.

Definition M (A : Type) : Type := st → st * res A.

#[global] Instance M_ret : MRet M := λ A (a : A) (s : st), (s, inr a).

#[global] Instance M_bind : MBind M := λ A B (f : A → M B) (m : M A) (s : st),
  match m s with
  | (s', inl e) => (s', inl e)
  | (s', inr a) => f a s'
  end.

Definition raise {A : Type} (e : exn) : M A := λ s, (s, inl e).

Definition lift {A : Type} (r : res A) : M A := λ s, (s, r).

(** one record leaves the csv reader *)
Definition pull : M unit :=
  λ s, ({| pulled := S (pulled s); out_file := out_file s |}, inr tt).

(** [open(output_csv, "w")]: the file exists and is empty *)
Definition open_out : M unit :=
  λ s, ({| pulled := pulled s; out_file := Some [] |}, inr tt).

(** the writer appends one record; on a file never opened nothing
    can be written *)
Definition write_record (r : list string) : M unit :=
  λ s, ({| pulled := pulled s;
           out_file := match out_file s with
                       | Some recs => Some (recs ++ [r])%list
                       | None => None
                       end |}, inr tt).

(** ** Files and the csv library *)

(** What [csv.reader] yields on a file: the records, and whether the
    iteration ends with [csv.Error] instead of [StopIteration]. *)
Record csv_stream : Type := mk_stream {
  records : list (list string);
  fails : bool
}.

(** A file system is a [gmap] from paths to files: [os.path.isfile(p)]
    holds when the path is bound. *)
Record file : Type := mk_file {
  sniffed : option string;          (* csv.Sniffer().sniff(f.read(4096)).delimiter, None when it raises *)
  parse : string → csv_stream;      (* csv.reader(f, delimiter=d) *)
  lines : list string               (* for line in f *)
}.

Definition sniff_delimiter (fsys : gmap string file) (sample_path : string)
    (default : string) : string :=
  match fsys !! sample_path with
  | Some f => match sniffed f with Some d => d | None => default end
  | None => default
  end.

(** A row of [csv.DictReader]: the dict over the field names, and the
    list stored under the key [None] when the record is longer than the
    header. *)
Record row : Type := mk_row {
  fields : gmap string (option string);
  extras : option (list string)
}.

(** [dict(zip(fieldnames, r))], then [None] for the field names the
    record is too short for; a later duplicate field name overrides. *)
Definition dict_row (fieldnames : list string) (r : list string) : row :=
  {| fields :=
       foldl (λ d kv, <[kv.1 := kv.2]> d) ∅
         (zip fieldnames
              ((Some <$> r) ++ replicate (length fieldnames - length r) None)%list);
     extras :=
       if decide (length fieldnames < length r)%nat
       then Some (drop (length fieldnames) r) else None |}.

(** [row.get(k)] *)
Definition row_get (rw : row) (k : string) : option string :=
  match fields rw !! k with
  | Some v => v
  | None => None
  end.

(** [reader.fieldnames]: the first record, pulled on first use *)
Definition read_fieldnames (s : csv_stream) : M (option (list string)) :=
  match records s with
  | [] => if fails s then raise CsvError else mret None
  | h :: _ => pull;; mret (Some h)
  end.

(** [fieldnames or []] *)
Definition or_nil (o : option (list string)) : list string :=
  match o with Some l => l | None => [] end.

(** the rows a [DictReader] yields: blank records are skipped *)
Definition dict_rows (fieldnames : list string) (recs : list (list string))
    : list row :=
  dict_row fieldnames <$> filter (λ r, r ≠ []) recs.

(** ** tools/db_filter_by_sku/filter_by_sku.py *)

Module FilterBySku.

(** *** [read_sku_list] *)

(** lines 27-31: the values given on the command line *)
Definition add_sku_values (case_insensitive : bool)
    (sku_values : option (list string)) (values : gset string) : gset string :=
  match sku_values with
  | Some vs =>
      foldl (λ acc v,
               let s := Py.strip v in
               if Py.truthy s then acc ∪ {[ Py.fold_case case_insensitive s ]}
               else acc)
            values vs
  | None => values
  end.

(** lines 42-45: the column of a file with a header *)
Definition add_column (case_insensitive : bool) (sku_file_column : string)
    (rows : list row) (values : gset string) : gset string :=
  foldl (λ acc rw,
           let s := Py.strip (Py.or_empty (row_get rw sku_file_column)) in
           if Py.truthy s then acc ∪ {[ Py.fold_case case_insensitive s ]}
           else acc)
        values rows.

(** lines 48-52 and 55-59: one value per line *)
Definition add_lines (case_insensitive : bool) (ls : list string)
    (values : gset string) : gset string :=
  foldl (λ acc line,
           let s := Py.strip line in
           if Py.truthy s && negb (Py.startswith s "#")
           then acc ∪ {[ Py.fold_case case_insensitive s ]}
           else acc)
        values ls.

(** [reader.fieldnames and sku_file_column in reader.fieldnames] *)
Definition has_column (fieldnames : list string) (c : string) : bool :=
  match fieldnames with
  | [] => false
  | _ => Py.in_list c fieldnames
  end.

Definition read_sku_list (fsys : gmap string file)
    (sku_values : option (list string)) (sku_file : option string)
    (sku_file_column : string) (case_insensitive : bool) : res (gset string) :=
  let values := add_sku_values case_insensitive sku_values ∅ in
  match sku_file with
  | None => inr values
  | Some path =>
      if negb (Py.truthy path) then inr values else
      match fsys !! path with
      | None => inl (FileNotFoundError path)
      | Some f =>
          let s := parse f "," in
          match records s with
          | [] =>
              (* fieldnames is None (line 46), or reading it raised
                 csv.Error (line 53): the lines of the file *)
              inr (add_lines case_insensitive (lines f) values)
          | h :: rest =>
              if has_column h sku_file_column then
                let values' :=
                  add_column case_insensitive sku_file_column
                             (dict_rows h rest) values in
                if fails s
                then (* csv.Error inside the loop of line 42 *)
                     inr (add_lines case_insensitive (lines f) values')
                else inr values'
              else inr (add_lines case_insensitive (lines f) values)
          end
      end
  end.

(** *** [stream_filter_csv] *)

(** [plant_values is not None and plant_col] (line 112) *)
Definition secondary (plant_col : option string)
    (plant_values : option (gset string)) : option (string * gset string) :=
  match plant_values, plant_col with
  | Some pv, Some pc => if Py.truthy pc then Some (pc, pv) else None
  | _, _ => None
  end.

(** lines 107-115: the match decision of one row *)
Definition is_match (article_col : string) (match_values : gset string)
    (plant_col : option string) (plant_values : option (gset string))
    (case_insensitive : bool) (rw : row) : bool :=
  let raw_val := Py.strip (Py.or_empty (row_get rw article_col)) in
  let key := Py.fold_case case_insensitive raw_val in
  let is_match := if Py.truthy key then Py.in_set key match_values else false in
  match secondary plant_col plant_values with
  | Some (pc, pv) =>
      if is_match then
        let plant_raw := Py.strip (Py.or_empty (row_get rw pc)) in
        let plant_key := Py.fold_case case_insensitive plant_raw in
        if Py.truthy plant_key then Py.in_set plant_key pv else false
      else is_match
  | None => is_match
  end.

(** lines 116-119 *)
Definition keep (invert : bool) (is_match : bool) : bool :=
  if invert then negb is_match else is_match.

(** line 122: [{k: row.get(k, "") for k in out_fields}] as the writer
    lays it out; the writer prints [None] as the empty field *)
Definition project (out_fields : list string) (rw : row) : list string :=
  (λ k, match fields rw !! k with
        | Some (Some v) => v
        | Some None => ""
        | None => ""
        end) <$> out_fields.

(** lines 106-123: the loop over the records after the header *)
Fixpoint filter_rows (article_col : string) (match_values : gset string)
    (plant_col : option string) (plant_values : option (gset string))
    (case_insensitive invert : bool) (fieldnames out_fields : list string)
    (recs : list (list string)) (fails : bool) (written : Z) : M Z :=
  match recs with
  | [] => if fails then raise CsvError else mret written
  | r :: rest =>
      pull;;
      let continue :=
        filter_rows article_col match_values plant_col plant_values
                    case_insensitive invert fieldnames out_fields rest fails in
      match r with
      | [] => continue written
      | _ =>
          let rw := dict_row fieldnames r in
          if keep invert (is_match article_col match_values plant_col
                                   plant_values case_insensitive rw)
          then write_record (project out_fields rw);; continue (written + 1)
          else continue written
      end
  end.

(** [plant_values and plant_col and plant_col not in fieldnames] (line 92) *)
Definition missing_plant_column (plant_col : option string)
    (plant_values : option (gset string)) (fieldnames : list string)
    : option string :=
  match plant_values, plant_col with
  | Some pv, Some pc =>
      if negb (bool_decide (pv = ∅)) && Py.truthy pc
         && negb (Py.in_list pc fieldnames)
      then Some pc else None
  | _, _ => None
  end.

(** lines 98-101 *)
Definition output_fields (select_columns : option (list string))
    (fieldnames : list string) : list string :=
  match select_columns with
  | Some cols =>
      if negb (bool_decide (cols = [])) && negb (bool_decide (cols = ["*"]))
      then cols else fieldnames
  | None => fieldnames
  end.

(** the reader over the input once the output has been opened with
    mode "w": opening the input path itself for writing empties it *)
Definition input_stream (f : file) (delimiter : string)
    (input_csv output_csv : string) : csv_stream :=
  if decide (output_csv = input_csv)
  then {| records := []; fails := false |}
  else parse f delimiter.

Definition stream_filter_csv (fsys : gmap string file)
    (input_csv output_csv article_col : string) (match_values : gset string)
    (plant_col : option string) (plant_values : option (gset string))
    (select_columns : option (list string))
    (case_insensitive invert : bool) : M Z :=
  match fsys !! input_csv with
  | None => raise (FileNotFoundError input_csv)
  | Some f =>
      let delimiter := sniff_delimiter fsys input_csv "," in
      open_out;;
      let s := input_stream f delimiter input_csv output_csv in
      fieldnames ← read_fieldnames s;
      if negb (Py.in_list article_col (or_nil fieldnames))
      then raise (ValueError article_col fieldnames)
      else
        match missing_plant_column plant_col plant_values (or_nil fieldnames) with
        | Some pc => raise (ValueError pc fieldnames)
        | None =>
            let out_fields := output_fields select_columns (or_nil fieldnames) in
            write_record out_fields;;
            filter_rows article_col match_values plant_col plant_values
                        case_insensitive invert (or_nil fieldnames) out_fields
                        (tail (records s)) (fails s) 0
        end
  end.

(** *** [main], from the parsed arguments on *)

Record args : Type := mk_args {
  input_csv : string;
  output_csv : string;
  csv_article_column : string;
  csv_plant_column : string;
  sku : option (list string);
  sku_file : option string;
  sku_file_column : string;
  columns : string;
  case_insensitive : bool;
  invert : bool;
  plant : option (list string)
}.

(** what [main] prints *)
Inductive printed : Type :=
  | NoSkuValues                       (* stderr, line 189 *)
  | Wrote (written : Z) (path : string)  (* stdout, line 218 *)
  | Error (e : exn).                  (* stderr, line 221 *)

(** lines 195-201 *)
Definition plant_set (case_insensitive : bool) (plant : option (list string))
    : option (gset string) :=
  match plant with
  | Some ps =>
      if bool_decide (ps = []) then None
      else
        let s : gset string :=
          list_to_set
            ((λ p, if case_insensitive then Py.lower (Py.strip p) else Py.strip p)
               <$> filter (λ p, Py.truthy p && Py.truthy (Py.strip p) = true) ps) in
        if bool_decide (s = ∅) then None else Some s
  | None => None
  end.

(** lines 203-205 and 214 *)
Definition select_of_columns (columns : string) : option (list string) :=
  let cols :=
    if Py.truthy columns then Py.strip <$> Py.split "," columns else ["*"] in
  let cols :=
    if bool_decide (length cols = 1%nat) && bool_decide (cols !! 0%nat = Some "*")
    then ["*"] else cols in
  if bool_decide (cols = ["*"]) then None else Some cols.

Definition main_body (fsys : gmap string file) (a : args) : M (Z * printed) :=
  match_values ← lift (read_sku_list fsys (sku a) (sku_file a)
                                     (sku_file_column a) (case_insensitive a));
  if bool_decide (match_values = ∅) then mret (2, NoSkuValues)
  else
    let plant_values := plant_set (case_insensitive a) (plant a) in
    let select_columns := select_of_columns (columns a) in
    written ← stream_filter_csv fsys (input_csv a) (output_csv a)
                (csv_article_column a) match_values
                (Some (csv_plant_column a)) plant_values select_columns
                (case_insensitive a) (invert a);
    mret (0, Wrote written (output_csv a)).

(** the [try] of lines 181-222, run from a state where nothing was read
    or written: the effects, the exit code and the message *)
Definition main (fsys : gmap string file) (a : args) : st * (Z * printed) :=
  match main_body fsys a st0 with
  | (s, inr r) => (s, r)
  | (s, inl e) => (s, (1, Error e))
  end.

End FilterBySku.

(** ** tools/unique_values/unique_values.py *)

Module UniqueValues.

(** the three accumulators of lines 32-34 *)
Record acc : Type := mk_acc {
  counts : gmap string Z;
  order : list string;
  display : gmap string string
}.

Definition acc0 : acc := {| counts := ∅; order := []; display := ∅ |}.

(** lines 47-54, 64-71 and 78-85: what the loop body does with the
    stripped value [val] of a row *)
Definition count_value (case_insensitive : bool) (val : string) (a : acc)
    : res acc :=
  if negb (Py.truthy val) then inr a
  else
    let key := Py.fold_case case_insensitive val in
    let a1 :=
      match counts a !! key with
      | None =>
          {| counts := <[key := 0]> (counts a);
             order := (order a ++ [key])%list;
             display := <[key := val]> (display a) |}
      | Some _ => a
      end in
    match counts a1 !! key with
    | Some c =>
        inr {| counts := <[key := c + 1]> (counts a1);
               order := order a1;
               display := display a1 |}
    | None => inl (KeyError key)
    end.

(** lines 43-54 and 74-85: [csv.reader], first field of each record *)
Fixpoint plain_rows (case_insensitive : bool) (recs : list (list string))
    (fails : bool) (a : acc) : M acc :=
  match recs with
  | [] => if fails then raise CsvError else mret a
  | r :: rest =>
      pull;;
      match r with
      | [] => plain_rows case_insensitive rest fails a
      | c0 :: _ =>
          a' ← lift (count_value case_insensitive
                       (Py.strip (Py.or_empty (Some c0))) a);
          plain_rows case_insensitive rest fails a'
      end
  end.

(** lines 62-71: [csv.DictReader], the column [col] of each row *)
Fixpoint header_rows (case_insensitive : bool) (fieldnames : list string)
    (col : string) (recs : list (list string)) (fails : bool) (a : acc)
    : M acc :=
  match recs with
  | [] => if fails then raise CsvError else mret a
  | r :: rest =>
      pull;;
      match r with
      | [] => header_rows case_insensitive fieldnames col rest fails a
      | _ =>
          a' ← lift (count_value case_insensitive
                       (Py.strip (Py.or_empty
                                    (row_get (dict_row fieldnames r) col))) a);
          header_rows case_insensitive fieldnames col rest fails a'
      end
  end.

(** line 57: [column or (fieldnames[0] if fieldnames else "value")] *)
Definition resolve_column (column : option string) (fieldnames : list string)
    : string :=
  match column with
  | Some c => if Py.truthy c then c else default "value" (head fieldnames)
  | None => default "value" (head fieldnames)
  end.

(** lines 27-85: the pass over the file *)
Definition accumulate (fsys : gmap string file) (input_csv : string)
    (column : option string) (no_header case_insensitive : bool) : M acc :=
  match fsys !! input_csv with
  | None => raise (FileNotFoundError input_csv)
  | Some f =>
      let delimiter := sniff_delimiter fsys input_csv "," in
      let s := parse f delimiter in
      if negb no_header then
        fieldnames ← read_fieldnames s;
        match fieldnames with
        | None =>
            (* f.seek(0): the plain reader starts over *)
            plain_rows case_insensitive (records s) (fails s) acc0
        | Some fn =>
            let col := resolve_column column fn in
            if negb (Py.in_list col fn)
            then raise (ValueError col (Some fn))
            else header_rows case_insensitive fn col
                             (tail (records s)) (fails s) acc0
        end
      else plain_rows case_insensitive (records s) (fails s) acc0
  end.

(** [display[k] for k in ks] *)
Fixpoint display_of (d : gmap string string) (ks : list string)
    : res (list string) :=
  match ks with
  | [] => inr []
  | k :: ks' =>
      match d !! k with
      | None => inl (KeyError k)
      | Some v =>
          match display_of d ks' with
          | inl e => inl e
          | inr vs => inr (v :: vs)
          end
      end
  end.

(** [counts.get(k, 0) == 1] *)
Definition once (c : gmap string Z) (k : string) : bool :=
  bool_decide (default 0 (c !! k) = 1).

(** lines 87-90 *)
Definition select (exactly_once : bool) (a : acc) : res (list string) :=
  if exactly_once
  then display_of (display a) (filter (λ k, once (counts a) k = true) (order a))
  else display_of (display a) (order a).

(** [sorted(values, key=key)]: the stable sort on the code-point order
    of the keys, as an insertion sort that puts an element before the
    first element whose key is not smaller *)
Fixpoint insert_by (key : string → string) (x : string) (l : list string)
    : list string :=
  match l with
  | [] => [x]
  | y :: l' =>
      if String.leb (key x) (key y) then x :: l else y :: insert_by key x l'
  end.

Definition sorted (key : string → string) (l : list string) : list string :=
  foldr (insert_by key) [] l.

(** line 93: the sort key *)
Definition sort_key (case_insensitive : bool) (s : string) : string :=
  if case_insensitive then Py.lower s else s.

(** lines 87-95 *)
Definition finish (case_insensitive sort_values exactly_once : bool)
    (a : acc) : res (list string) :=
  match select exactly_once a with
  | inl e => inl e
  | inr values =>
      if sort_values then inr (sorted (sort_key case_insensitive) values)
      else inr values
  end.

Definition read_unique_values (fsys : gmap string file) (input_csv : string)
    (column : option string)
    (no_header case_insensitive sort_values exactly_once : bool)
    : M (list string) :=
  a ← accumulate fsys input_csv column no_header case_insensitive;
  lift (finish case_insensitive sort_values exactly_once a).

End UniqueValues.

(** * Notions used to state the properties of the row filter *)

Module FilterSpec.
Import FilterBySku.

(** [l] is split into [l1] and [l2]: every position of [l] goes to
    exactly one of the two, and both keep the order of [l]. *)
Inductive partitions {A : Type} : list A → list A → list A → Prop :=
  | partitions_nil : partitions [] [] []
  | partitions_left x l1 l2 l :
      partitions l1 l2 l → partitions (x :: l1) l2 (x :: l)
  | partitions_right x l1 l2 l :
      partitions l1 l2 l → partitions l1 (x :: l2) (x :: l).

(** the rows the input reader yields after the header *)
Definition input_rows (s : csv_stream) : list row :=
  match records s with
  | [] => []
  | h :: rest => dict_rows h rest
  end.

(** the rows of a list that a run keeps *)
Definition kept_rows (article_col : string) (match_values : gset string)
    (plant_col : option string) (plant_values : option (gset string))
    (case_insensitive invert : bool) (rows : list row) : list row :=
  filter (λ rw, keep invert (is_match article_col match_values plant_col
                                      plant_values case_insensitive rw) = true)
         rows.

(** how a run over a stream ends once the header was accepted *)
Definition outcome (fails : bool) (written : Z) : res Z :=
  if fails then inl CsvError else inr written.

(** the reader of a run, and the rows it yields after the header *)
Definition source_stream (fsys : gmap string file)
    (input_csv output_csv : string) : option csv_stream :=
  match fsys !! input_csv with
  | Some f =>
      Some (input_stream f (sniff_delimiter fsys input_csv ",")
                         input_csv output_csv)
  | None => None
  end.

Definition source_rows (fsys : gmap string file)
    (input_csv output_csv : string) : list row :=
  match source_stream fsys input_csv output_csv with
  | Some s => input_rows s
  | None => []
  end.

(** the data records of the output file: what follows its header *)
Definition written_rows (s : st) : list (list string) :=
  match out_file s with
  | Some recs => tail recs
  | None => []
  end.

(** The input of the scenarios of the specification: three rows under
    the header article, plant, qty. *)
Definition scenario_header : list string := ["article"; "plant"; "qty"].

Definition scenario_records : list (list string) :=
  [ scenario_header;
    ["SKU1"; "SYD"; "5"];
    ["SKU2"; "MEL"; "3"];
    ["SKU1"; "MEL"; "2"] ].

Definition scenario_file : file :=
  {| sniffed := Some ",";
     parse := λ _, {| records := scenario_records; fails := false |};
     lines := ["article,plant,qty"; "SKU1,SYD,5"; "SKU2,MEL,3"; "SKU1,MEL,2"] |}.

Definition scenario_fs : gmap string file := {[ "in.csv" := scenario_file ]}.

(** the normalized value of a column of a row *)
Definition normalized (case_insensitive : bool) (rw : row) (col : string)
    : string :=
  Py.fold_case case_insensitive (Py.strip (Py.or_empty (row_get rw col))).

(** the arguments of a run on the scenario input whose only value,
    SKU9, is the article of no row *)
Definition zero_match_args : FilterBySku.args :=
  {| input_csv := "in.csv"; output_csv := "out.csv";
     csv_article_column := "article"; csv_plant_column := "plant";
     sku := Some ["SKU9"]; sku_file := None; sku_file_column := "article";
     columns := "*"; case_insensitive := false; invert := false;
     plant := None |}.

(** the same arguments with only blank values: no criteria at all *)
Definition no_criteria_args : FilterBySku.args :=
  {| input_csv := "in.csv"; output_csv := "out.csv";
     csv_article_column := "article"; csv_plant_column := "plant";
     sku := Some ["  "; ""]; sku_file := None; sku_file_column := "article";
     columns := "*"; case_insensitive := false; invert := false;
     plant := None |}.

(** *** The key sets that [read_sku_list] is specified to build *)

(** the literals: trimmed, the empty ones dropped, normalized *)
Definition literal_keys (case_insensitive : bool)
    (sku_values : option (list string)) : gset string :=
  list_to_set
    (Py.fold_case case_insensitive
       <$> filter (λ s, s ≠ "") (Py.strip <$> default [] sku_values)).

(** line-oriented mode: every line trimmed, blank lines and lines that
    begin with # dropped, the others normalized *)
Definition line_keys (case_insensitive : bool) (ls : list string)
    : gset string :=
  list_to_set
    (Py.fold_case case_insensitive
       <$> filter (λ s, s ≠ "" ∧ Py.startswith s "#" = false) (Py.strip <$> ls)).

(** structured mode: the values of the column, trimmed, the empty ones
    dropped, the others normalized *)
Definition column_keys (case_insensitive : bool) (col : string)
    (rows : list row) : gset string :=
  list_to_set
    (Py.fold_case case_insensitive
       <$> filter (λ s, s ≠ "")
             ((λ rw, Py.strip (Py.or_empty (row_get rw col))) <$> rows)).

(** a key file with one value per line and a comment *)
Definition plain_key_file : file :=
  {| sniffed := None;
     parse := λ _, {| records := [["SKU1"]; ["# old"]; [" sku2 "]; []];
                      fails := false |};
     lines := ["SKU1"; "# old"; " sku2 "; ""] |}.

(** a key file with a header and the column article *)
Definition headed_key_file : file :=
  {| sniffed := Some ",";
     parse := λ _, {| records := [["article"; "note"]; ["SKU1"; "x"];
                                   [" "; "blank"]; ["SKU3"]];
                      fails := false |};
     lines := ["article,note"; "SKU1,x"; " ,blank"; "SKU3"] |}.

Definition key_fs : gmap string file :=
  {[ "plain.txt" := plain_key_file; "keys.csv" := headed_key_file ]}.

(** a field of 131073 characters, one more than the field size limit of
    the csv module: the reader raises [csv.Error] on it *)
Definition oversized_field : string :=
  String "x" (string_of_list_ascii (repeat "x"%char (N.to_nat 131072))).

(** a key file with the header article, qty and one row, followed by a
    line that is one oversized field: the structured reader yields the
    header and the row, then raises [csv.Error] *)
Definition broken_key_file : file :=
  {| sniffed := Some ",";
     parse := λ _, {| records := [["article"; "qty"]; ["SKU1"; "2"]];
                      fails := true |};
     lines := ["article,qty"; "SKU1,2"; oversized_field] |}.

Definition broken_key_fs : gmap string file :=
  {[ "broken.csv" := broken_key_file ]}.

End FilterSpec.

(** * Notions used to state the properties of the extractor *)

Module UniqueSpec.
Import UniqueValues.

(** what one value does to the accumulators, as a total function *)
Definition step (case_insensitive : bool) (a : acc) (val : string) : acc :=
  if decide (val = "") then a
  else
    let key := Py.fold_case case_insensitive val in
    match counts a !! key with
    | None =>
        {| counts := <[key := 1]> (counts a);
           order := (order a ++ [key])%list;
           display := <[key := val]> (display a) |}
    | Some c =>
        {| counts := <[key := c + 1]> (counts a);
           order := order a;
           display := display a |}
    end.

(** the trimmed values that the loops hand to the loop body, in row
    order: the first field of every non-blank record, or the column
    [col] of every row *)
Definition plain_values (recs : list (list string)) : list string :=
  (λ r, Py.strip (Py.or_empty (head r))) <$> filter (λ r, r ≠ []) recs.

Definition header_values (fieldnames : list string) (col : string)
    (recs : list (list string)) : list string :=
  (λ rw, Py.strip (Py.or_empty (row_get rw col))) <$> dict_rows fieldnames recs.

(** the trimmed values a run observes *)
Definition observed (fsys : gmap string file) (input_csv : string)
    (column : option string) (no_header : bool) : list string :=
  match fsys !! input_csv with
  | None => []
  | Some f =>
      let s := parse f (sniff_delimiter fsys input_csv ",") in
      if no_header then plain_values (records s)
      else
        match records s with
        | [] => []
        | h :: rest =>
            if Py.in_list (resolve_column column h) h
            then header_values h (resolve_column column h) rest
            else []
        end
  end.

(** the observed values that normalize to the key [k], in row order *)
Definition hits (case_insensitive : bool) (k : string) (vals : list string)
    : list string :=
  filter (λ v, v ≠ "" ∧ Py.fold_case case_insensitive v = k) vals.

(** the invariant of the accumulators *)
Definition consistent (a : acc) : Prop :=
  NoDup (order a)
  ∧ (list_to_set (order a) : gset string) = dom (counts a)
  ∧ dom (counts a) = dom (display a)
  ∧ ∀ k c, counts a !! k = Some c → 1 ≤ c.

(** the accumulators describe the values [vals] seen so far *)
Definition describes (case_insensitive : bool) (vals : list string) (a : acc)
    : Prop :=
  NoDup (order a)
  ∧ (∀ k, k ∈ order a ↔ hits case_insensitive k vals ≠ [])
  ∧ (∀ k, counts a !! k =
          match hits case_insensitive k vals with
          | [] => None
          | h => Some (Z.of_nat (length h))
          end)
  ∧ (∀ k, display a !! k = head (hits case_insensitive k vals)).

(** the display values of a list of keys *)
Definition shown (a : acc) (ks : list string) : list string :=
  (λ k, default "" (display a !! k)) <$> ks.

(** the keys kept by the selection of lines 87-90 *)
Definition selected (exactly_once : bool) (a : acc) : list string :=
  if exactly_once then filter (λ k, once (counts a) k = true) (order a)
  else order a.

(** the order of the sort keys *)
Definition key_le (key : string → string) (x y : string) : Prop :=
  String.leb (key x) (key y) = true.

(** the column of the scenario on case-insensitive sorting *)
Definition scenario_e_file : file :=
  {| sniffed := None;
     parse := λ _, {| records := [["value"]; ["B"]; ["a"]; ["b"]];
                      fails := false |};
     lines := ["value"; "B"; "a"; "b"] |}.

Definition scenario_e_fs : gmap string file := {[ "e.csv" := scenario_e_file ]}.

End UniqueSpec.

(** * The rest of tools/unique_values/unique_values.py *)

Module UniqueTool.
Import UniqueValues.

(** the line feed written after every value of a text output *)
Definition newline : string := String (ascii_of_nat 10) EmptyString.

(** what [write_output] leaves in the output file: the strings passed to
    [f.write], or the records passed to [writer.writerow] *)
Inductive content : Type :=
  | Text (chunks : list string)
  | Records (recs : list (list string)).

(** [header or "value"] *)
Definition or_value (header : option string) : string :=
  match header with
  | Some h => if Py.truthy h then h else "value"
  | None => "value"
  end.

(** lines 98-109 *)
Definition write_output (values : list string) (fmt : string)
    (header : option string) : content :=
  if bool_decide (fmt = "txt")
  then Text ((λ v, v ++ newline) <$> values)
  else Records ([or_value header] :: ((λ v, [v]) <$> values)).

Record args : Type := mk_args {
  input_csv : string;
  output : string;
  column : option string;
  no_header : bool;
  case_insensitive : bool;
  sort : bool;
  exactly_once : bool;
  format : string;
  output_header : option string
}.

Inductive printed : Type :=
  | Wrote (count : nat) (path : string)   (* stdout, line 140 *)
  | Error (e : exn).                      (* stderr, line 143 *)

(** [args.output_header or args.column or "value"] (line 139) *)
Definition header_label (a : args) : string :=
  match output_header a with
  | Some h => if Py.truthy h then h else or_value (column a)
  | None => or_value (column a)
  end.

(** the result of a run of [main]: the records pulled from the input,
    the output file if one was written, the exit code and the message *)
Record outcome : Type := mk_outcome {
  records_pulled : nat;
  written : option content;
  exit_code : Z;
  message : printed
}.

(** lines 130-144 *)
Definition main (fsys : gmap string file) (a : args) : outcome :=
  match read_unique_values fsys (input_csv a) (column a) (no_header a)
          (case_insensitive a) (sort a) (exactly_once a) st0 with
  | (s, inr values) =>
      {| records_pulled := pulled s;
         written := Some (write_output values (format a) (Some (header_label a)));
         exit_code := 0;
         message := Wrote (length values) (output a) |}
  | (s, inl e) =>
      {| records_pulled := pulled s;
         written := None;
         exit_code := 1;
         message := Error e |}
  end.

End UniqueTool.

(** * Notions used to state further properties *)

Module ExtraSpec.

(** a string that does not begin with a blank *)
Definition starts_clean (s : string) : Prop :=
  match s with
  | EmptyString => True
  | String c _ => Py.is_space c = false
  end.

(** the keys of a list in the order of their first occurrence *)
Fixpoint dedup_first (ks : list string) : list string :=
  match ks with
  | [] => []
  | k :: ks' => k :: filter (λ k', k' ≠ k) (dedup_first ks')
  end.

(** the normalized keys of the non-empty values of a list, in order *)
Definition keys_of (case_insensitive : bool) (vals : list string)
    : list string :=
  Py.fold_case case_insensitive <$> filter (λ v, v ≠ "") vals.

(** a record as the default projection writes it back: cut to the
    length of the header, or filled with empty fields *)
Definition squared (width : nat) (r : list string) : list string :=
  take width (r ++ replicate (width - length r) "")%list.

(** a file from which the reader yields the given records *)
Definition file_of_records (recs : list (list string)) : file :=
  {| sniffed := None;
     parse := λ _, {| records := recs; fails := false |};
     lines := [] |}.

End ExtraSpec.

(** * Facts about the Python string model *)

Module PyFacts.
Import Py.

Lemma truthy_true (s : string) : truthy s = true ↔ s ≠ "".
Proof. destruct s; simpl; split; intros; congruence. Qed.

Lemma truthy_false (s : string) : truthy s = false ↔ s = "".
Proof. destruct s; simpl; split; intros; congruence. Qed.

Lemma or_empty_Some (s : string) : or_empty (Some s) = s.
Proof. destruct s; reflexivity. Qed.

Lemma lower_empty (s : string) : lower s = "" ↔ s = "".
Proof. destruct s; simpl; split; intros; congruence. Qed.

End PyFacts.

(** * Properties of the row filter *)

Module FilterProps.
Import FilterBySku FilterSpec.


Lemma partitions_sublist_l {A : Type} (l1 l2 l : list A) :
  partitions l1 l2 l → sublist l1 l.
Proof. induction 1; by constructor. Qed.

Lemma partitions_sublist_r {A : Type} (l1 l2 l : list A) :
  partitions l1 l2 l → sublist l2 l.
Proof. induction 1; by constructor. Qed.



Lemma kept_rows_sublist ac mv pc pv ci inv (rows : list row) :
  sublist (kept_rows ac mv pc pv ci inv rows) rows.
Proof. apply sublist_filter. Qed.

Lemma dict_rows_cons_nil fn (rest : list (list string)) :
  dict_rows fn ([] :: rest) = dict_rows fn rest.
Proof. unfold dict_rows. rewrite filter_cons. by rewrite decide_False by auto. Qed.

Lemma dict_rows_cons fn (r : list string) (rest : list (list string)) :
  r ≠ [] → dict_rows fn (r :: rest) = dict_row fn r :: dict_rows fn rest.
Proof.
  intros Hr. unfold dict_rows. rewrite filter_cons.
  by rewrite decide_True by done.
Qed.

Lemma dict_rows_length fn (recs : list (list string)) :
  (length (dict_rows fn recs) ≤ length recs)%nat.
Proof. unfold dict_rows. rewrite length_fmap. apply length_filter. Qed.

Lemma kept_rows_cons ac mv pc pv ci inv (rw : row) (rows : list row) :
  kept_rows ac mv pc pv ci inv (rw :: rows) =
    if keep inv (is_match ac mv pc pv ci rw)
    then rw :: kept_rows ac mv pc pv ci inv rows
    else kept_rows ac mv pc pv ci inv rows.
Proof.
  unfold kept_rows. rewrite filter_cons.
  destruct (keep inv (is_match ac mv pc pv ci rw)); simpl; reflexivity.
Qed.

(** The loop, run on an opened output file: it pulls every record,
    appends the projection of every kept row, and returns the number of
    kept rows added to the count it started with. *)
Lemma filter_rows_run ac mv pc pv ci inv fn outf recs fl w s o :
  out_file s = Some o →
  filter_rows ac mv pc pv ci inv fn outf recs fl w s =
    ({| pulled := pulled s + length recs;
        out_file :=
          Some (o ++ (project outf <$>
                        kept_rows ac mv pc pv ci inv (dict_rows fn recs)))%list |},
     outcome fl (w + Z.of_nat
                       (length (kept_rows ac mv pc pv ci inv (dict_rows fn recs))))).
Proof.
  revert w s o. induction recs as [|r rest IH]; intros w s o Ho.
  - simpl. unfold outcome, raise. destruct s as [p ofl]. simpl in *. subst ofl.
    rewrite Nat.add_0_r, app_nil_r, Z.add_0_r.
    destruct fl; reflexivity.
  - cbn [filter_rows]. unfold mbind, M_bind, pull at 1.
    destruct r as [|c r'].
    + rewrite dict_rows_cons_nil.
      erewrite IH by (simpl; exact Ho). simpl.
      do 2 f_equal. lia.
    + rewrite dict_rows_cons by done. rewrite kept_rows_cons.
      destruct (keep inv (is_match ac mv pc pv ci (dict_row fn (c :: r')))).
      * unfold write_record at 1. simpl pulled. simpl out_file. rewrite Ho.
        erewrite IH by reflexivity. cbn [pulled out_file length fmap list_fmap].
        f_equal.
        -- f_equal; [lia|]. by rewrite <- app_assoc.
        -- f_equal. lia.
      * erewrite IH by (simpl; exact Ho). simpl.
        do 2 f_equal. lia.
Qed.

(** The whole function, by cases on the input. *)
Lemma stream_filter_csv_run fsys inp outp ac mv pc pv sel ci inv s :
  stream_filter_csv fsys inp outp ac mv pc pv sel ci inv s =
    match source_stream fsys inp outp with
    | None => (s, inl (FileNotFoundError inp))
    | Some strm =>
        match records strm with
        | [] =>
            ({| pulled := pulled s; out_file := Some [] |},
             inl (if fails strm then CsvError else ValueError ac None))
        | h :: rest =>
            let s1 := {| pulled := S (pulled s); out_file := Some [] |} in
            if negb (Py.in_list ac h) then (s1, inl (ValueError ac (Some h)))
            else
              match missing_plant_column pc pv h with
              | Some c => (s1, inl (ValueError c (Some h)))
              | None =>
                  let cols := output_fields sel h in
                  let kept := kept_rows ac mv pc pv ci inv (dict_rows h rest) in
                  ({| pulled := S (pulled s) + length rest;
                      out_file := Some (cols :: (project cols <$> kept)) |},
                   outcome (fails strm) (Z.of_nat (length kept)))
              end
        end
    end.
Proof.
  unfold stream_filter_csv, source_stream.
  destruct (fsys !! inp) as [f|]; [|reflexivity].
  set (strm := input_stream f (sniff_delimiter fsys inp ",") inp outp).
  unfold mbind, M_bind, open_out at 1, read_fieldnames.
  destruct (records strm) as [|h rest] eqn:Hrec.
  - destruct (fails strm); reflexivity.
  - unfold mbind, M_bind, pull at 1, mret, M_ret. cbn [or_nil tail].
    destruct (negb (Py.in_list ac h)); [reflexivity|].
    destruct (missing_plant_column pc pv h); [reflexivity|].
    unfold write_record at 1. cbn [pulled out_file].
    erewrite filter_rows_run by reflexivity. reflexivity.
Qed.

(** With the default projection a row whose record has the length of
    a duplicate-free header is written back as it was read. *)
Lemma dict_fields_other (ks : list string) (vs : list (option string))
    (m : gmap string (option string)) (k : string) :
  k ∉ ks →
  foldl (λ d kv, <[kv.1 := kv.2]> d) m (zip ks vs) !! k = m !! k.
Proof.
  revert vs m. induction ks as [|k0 ks IH]; intros vs m Hk; [reflexivity|].
  destruct vs as [|v0 vs]; [reflexivity|]. simpl.
  rewrite IH by (intros H; apply Hk; by right).
  apply lookup_insert_ne. intros ->. apply Hk. left.
Qed.

Lemma project_dict_row (fieldnames r : list string) :
  NoDup fieldnames → length r = length fieldnames →
  project fieldnames (dict_row fieldnames r) = r.
Proof.
  intros Hnd Hlen. unfold project, dict_row. cbn [fields].
  rewrite Hlen, Nat.sub_diag. simpl. rewrite app_nil_r.
  generalize (∅ : gmap string (option string)) as m.
  revert r Hlen. induction Hnd as [|k ks Hk Hnd IH]; intros r Hlen m.
  - by destruct r.
  - destruct r as [|v r]; [discriminate|]. simpl. f_equal.
    + rewrite dict_fields_other by done. by rewrite lookup_insert_eq.
    + injection Hlen as Hlen. exact (IH r Hlen (<[k := Some v]> m)).
Qed.


(** C2. Without inversion, the data records of the output file are the
    projections of a subsequence of the input rows, in input order, and
    a returned count is the length of that subsequence, hence at most
    the number of input rows. *)
Theorem filter_output_is_subsequence
    (fsys : gmap string file) (input_csv output_csv article_col : string)
    (match_values : gset string) (plant_col : option string)
    (plant_values : option (gset string)) (select_columns : option (list string))
    (case_insensitive : bool) :
  let r := stream_filter_csv fsys input_csv output_csv article_col match_values
             plant_col plant_values select_columns case_insensitive false st0 in
  ∃ cols kept,
    sublist kept (source_rows fsys input_csv output_csv) ∧
    written_rows r.1 = project cols <$> kept ∧
    match r.2 with
    | inr written =>
        written = Z.of_nat (length kept) ∧
        length (written_rows r.1) = length kept ∧
        0 ≤ written ≤ Z.of_nat (length (source_rows fsys input_csv output_csv))
    | inl _ => True
    end.
Proof.
  intros r. subst r. rewrite stream_filter_csv_run.
  unfold source_rows, input_rows.
  destruct (source_stream fsys input_csv output_csv) as [strm|].
  2:{ exists [], []. split; [constructor|]. by split. }
  destruct (records strm) as [|h rest].
  { exists [], []. split; [constructor|]. by split. }
  cbv zeta. destruct (negb (Py.in_list article_col h)).
  { exists [], []. split; [apply sublist_nil_l|]. by split. }
  destruct (missing_plant_column plant_col plant_values h).
  { exists [], []. split; [apply sublist_nil_l|]. by split. }
  eexists _, _. split; [apply kept_rows_sublist|].
  split; [reflexivity|].
  unfold outcome. destruct (fails strm); simpl; [done|].
  pose proof (sublist_length _ _
    (kept_rows_sublist article_col match_values plant_col plant_values
       case_insensitive false (dict_rows h rest))).
  split; [done|]. split; [unfold written_rows; simpl; apply length_fmap|]. lia.
Qed.

Lemma in_set_true (x : string) (s : gset string) :
  Py.in_set x s = true ↔ x ∈ s.
Proof. unfold Py.in_set. apply bool_decide_eq_true. Qed.

Lemma in_list_true (x : string) (l : list string) :
  Py.in_list x l = true ↔ x ∈ l.
Proof. unfold Py.in_list. apply bool_decide_eq_true. Qed.

Lemma in_list_false (x : string) (l : list string) :
  Py.in_list x l = false ↔ x ∉ l.
Proof. unfold Py.in_list. apply bool_decide_eq_false. Qed.

Lemma fold_case_empty (ci : bool) (s : string) :
  Py.fold_case ci s = "" ↔ s = "".
Proof. destruct ci; simpl; [apply PyFacts.lower_empty|done]. Qed.

(** The claim C3 as it is worded, for a secondary column that is given
    but is the empty string: the row matches on the primary column alone,
    although its secondary value is not a member of the secondary set. *)
Lemma secondary_filter_skipped_for_empty_column_name :
  let rw := dict_row scenario_header ["SKU1"; "MEL"; "2"] in
  ¬ (is_match "article" {[ "SKU1" ]} (Some "") (Some {[ "SYD" ]}) false rw = true
     ↔ normalized false rw "article" ∈ ({[ "SKU1" ]} : gset string) ∧
       (normalized false rw "" ≠ "" ∧
        normalized false rw "" ∈ ({[ "SYD" ]} : gset string))).
Proof.
  intros rw [Hyes _].
  assert (Hm : is_match "article" {[ "SKU1" ]} (Some "") (Some {[ "SYD" ]})
                        false rw = true) by (vm_compute; reflexivity).
  destruct (Hyes Hm) as [_ [Hne _]]. apply Hne. vm_compute. reflexivity.
Qed.

(** C3, amended. With a secondary set and a secondary column whose name
    is not empty, a row is a final match exactly when its normalized
    primary value is a non-empty member of the match set and its
    normalized secondary value is a non-empty member of the secondary
    set; a row whose secondary value trims to the empty string is never a
    final match; and on the three-row scenario with match set SKU1 and
    secondary set SYD exactly the first row is written, with count 1. *)
Theorem secondary_filter_is_conjunction
    (article_col : string) (match_values : gset string) (plant_col : string)
    (plant_values : gset string) (case_insensitive : bool) (rw : row) :
  plant_col ≠ "" →
  (is_match article_col match_values (Some plant_col) (Some plant_values)
            case_insensitive rw = true
   ↔ (normalized case_insensitive rw article_col ≠ "" ∧
      normalized case_insensitive rw article_col ∈ match_values) ∧
     (normalized case_insensitive rw plant_col ≠ "" ∧
      normalized case_insensitive rw plant_col ∈ plant_values))
  ∧ (Py.strip (Py.or_empty (row_get rw plant_col)) = "" →
     is_match article_col match_values (Some plant_col) (Some plant_values)
              case_insensitive rw = false)
  ∧ stream_filter_csv scenario_fs "in.csv" "out.csv" "article" {[ "SKU1" ]}
      (Some "plant") (Some {[ "SYD" ]}) None false false st0
    = ({| pulled := 4;
          out_file := Some [scenario_header; ["SKU1"; "SYD"; "5"]] |}, inr 1).
Proof.
  intros Hpc.
  assert (Hsec : secondary (Some plant_col) (Some plant_values)
                 = Some (plant_col, plant_values)).
  { unfold secondary. apply PyFacts.truthy_true in Hpc. by rewrite Hpc. }
  assert (Hiff :
    is_match article_col match_values (Some plant_col) (Some plant_values)
             case_insensitive rw = true
    ↔ (normalized case_insensitive rw article_col ≠ "" ∧
       normalized case_insensitive rw article_col ∈ match_values) ∧
      (normalized case_insensitive rw plant_col ≠ "" ∧
       normalized case_insensitive rw plant_col ∈ plant_values)).
  { unfold is_match. rewrite Hsec. cbv zeta. fold (normalized case_insensitive rw article_col).
    fold (normalized case_insensitive rw plant_col).
    destruct (Py.truthy (normalized case_insensitive rw article_col)) eqn:Hk.
    - apply PyFacts.truthy_true in Hk.
      destruct (Py.in_set (normalized case_insensitive rw article_col) match_values) eqn:Hin.
      + apply in_set_true in Hin.
        destruct (Py.truthy (normalized case_insensitive rw plant_col)) eqn:Hp.
        * apply PyFacts.truthy_true in Hp. rewrite in_set_true. tauto.
        * apply PyFacts.truthy_false in Hp. split; [done|]. tauto.
      + split; [done|]. intros [[_ Hin'] _]. apply in_set_true in Hin'. congruence.
    - apply PyFacts.truthy_false in Hk. split; [done|]. tauto. }
  split; [exact Hiff|]. split.
  - intros Hempty. apply not_true_is_false. intros Hm.
    apply Hiff in Hm. destruct Hm as [_ [Hne _]]. apply Hne.
    unfold normalized. rewrite Hempty. by destruct case_insensitive.
  - vm_compute. reflexivity.
Qed.

Lemma secondary_filter_is_conjunction_witness :
  "plant" ≠ "" ∧
  is_match "article" {[ "SKU1" ]} (Some "plant") (Some {[ "SYD" ]}) false
           (dict_row scenario_header ["SKU1"; "MEL"; "2"]) = false.
Proof.
  split; [done|].
  apply not_true_is_false. intros Hm.
  apply (proj1 (secondary_filter_is_conjunction "article" {[ "SKU1" ]} "plant"
           {[ "SYD" ]} false (dict_row scenario_header ["SKU1"; "MEL"; "2"])
           ltac:(done))) in Hm.
  destruct Hm as [_ [_ Hin]]. vm_compute in Hin. discriminate Hin.
Defined.

(** [main] by cases on what its two calls return *)
Lemma main_run (fsys : gmap string file) (a : args) :
  main fsys a =
    match read_sku_list fsys (sku a) (sku_file a) (sku_file_column a)
                        (case_insensitive a) with
    | inl e => (st0, (1, Error e))
    | inr mv =>
        if bool_decide (mv = ∅) then (st0, (2, NoSkuValues))
        else
          match stream_filter_csv fsys (input_csv a) (output_csv a)
                  (csv_article_column a) mv (Some (csv_plant_column a))
                  (plant_set (case_insensitive a) (plant a))
                  (select_of_columns (columns a)) (case_insensitive a)
                  (invert a) st0 with
          | (s, inl e) => (s, (1, Error e))
          | (s, inr n) => (s, (0, Wrote n (output_csv a)))
          end
    end.
Proof.
  unfold main, main_body, mbind, M_bind, lift, mret, M_ret.
  destruct (read_sku_list fsys (sku a) (sku_file a) (sku_file_column a)
              (case_insensitive a)) as [e|mv]; [reflexivity|].
  destruct (bool_decide (mv = ∅)); [reflexivity|].
  destruct (stream_filter_csv fsys (input_csv a) (output_csv a)
              (csv_article_column a) mv (Some (csv_plant_column a))
              (plant_set (case_insensitive a) (plant a))
              (select_of_columns (columns a)) (case_insensitive a)
              (invert a) st0) as [s' [e|n]]; reflexivity.
Qed.

(** C8. When the match set that [read_sku_list] builds is empty, [main]
    stops with exit code 2 and the message about missing values, in the
    initial state: nothing was read, the output file was not opened.
    Exit code 2 is returned in no other case, and a run that matches no
    row is a success: on the scenario input with the value SKU9 it
    returns 0 and reports 0 rows, after writing the header. *)
Theorem empty_match_set_is_reported_apart
    (fsys : gmap string file) (a : args) :
  (read_sku_list fsys (sku a) (sku_file a) (sku_file_column a)
                 (case_insensitive a) = inr ∅ →
   main fsys a = (st0, (2, NoSkuValues)))
  ∧ ((main fsys a).2.1 = 2 →
     read_sku_list fsys (sku a) (sku_file a) (sku_file_column a)
                   (case_insensitive a) = inr ∅)
  ∧ (∀ n path, (main fsys a).2.2 = Wrote n path →
       (main fsys a).2.1 = 0 ∧
       read_sku_list fsys (sku a) (sku_file a) (sku_file_column a)
                     (case_insensitive a) ≠ inr ∅)
  ∧ main scenario_fs zero_match_args
    = ({| pulled := 4; out_file := Some [scenario_header] |},
       (0, Wrote 0 "out.csv")).
Proof.
  assert (Hzero : main scenario_fs zero_match_args
                  = ({| pulled := 4; out_file := Some [scenario_header] |},
                     (0, Wrote 0 "out.csv"))) by (vm_compute; reflexivity).
  rewrite (main_run fsys a).
  destruct (read_sku_list fsys (sku a) (sku_file a) (sku_file_column a)
              (case_insensitive a)) as [e|mv].
  { split; [discriminate|]. split; [simpl; discriminate|].
    split; [simpl; discriminate|exact Hzero]. }
  destruct (bool_decide (mv = ∅)) eqn:Hmv.
  { apply bool_decide_eq_true in Hmv. subst mv.
    split; [reflexivity|]. split; [reflexivity|].
    split; [simpl; discriminate|exact Hzero]. }
  apply bool_decide_eq_false in Hmv.
  assert (Hne : (inr mv : res (gset string)) ≠ inr ∅) by congruence.
  destruct (stream_filter_csv fsys (input_csv a) (output_csv a)
              (csv_article_column a) mv (Some (csv_plant_column a))
              (plant_set (case_insensitive a) (plant a))
              (select_of_columns (columns a)) (case_insensitive a)
              (invert a) st0) as [s' [e|n]].
  - split; [done|]. split; [simpl; discriminate|].
    split; [simpl; discriminate|exact Hzero].
  - split; [done|]. split; [simpl; discriminate|].
    split; [|exact Hzero]. simpl. intros _ _ _. split; [reflexivity|exact Hne].
Qed.

Lemma empty_match_set_is_reported_apart_witness :
  read_sku_list scenario_fs (sku no_criteria_args) (sku_file no_criteria_args)
                (sku_file_column no_criteria_args)
                (case_insensitive no_criteria_args) = inr ∅
  ∧ main scenario_fs no_criteria_args = (st0, (2, NoSkuValues)).
Proof.
  assert (H : read_sku_list scenario_fs (sku no_criteria_args)
                (sku_file no_criteria_args) (sku_file_column no_criteria_args)
                (case_insensitive no_criteria_args) = inr ∅)
    by (vm_compute; reflexivity).
  split; [exact H|].
  exact (proj1 (empty_match_set_is_reported_apart scenario_fs no_criteria_args) H).
Defined.

Lemma filter_all_false {A : Type} (P : A → Prop) `{∀ x, Decision (P x)}
    (l : list A) :
  (∀ x, x ∈ l → ¬ P x) → filter P l = [].
Proof.
  induction l as [|x l IH]; intros Hall; [reflexivity|].
  rewrite filter_cons. rewrite decide_False by (apply Hall; left).
  apply IH. intros y Hy. apply Hall. by right.
Qed.

(** C10. When every value given with [--plant] trims to the empty
    string, the secondary set is [None], and the run is the run without
    any [--plant] value: same effects, same exit code, same message. *)
Theorem blank_plants_mean_no_secondary_filter
    (fsys : gmap string file) (input_csv output_csv : string)
    (csv_article_column csv_plant_column : string)
    (sku : option (list string)) (sku_file : option string)
    (sku_file_column columns : string) (case_insensitive invert : bool)
    (plants : list string) :
  (∀ p, p ∈ plants → Py.strip p = "") →
  plant_set case_insensitive (Some plants) = None
  ∧ main fsys (mk_args input_csv output_csv csv_article_column
                       csv_plant_column sku sku_file sku_file_column columns
                       case_insensitive invert (Some plants))
    = main fsys (mk_args input_csv output_csv csv_article_column
                         csv_plant_column sku sku_file sku_file_column columns
                         case_insensitive invert None).
Proof.
  intros Hblank.
  assert (Hnone : plant_set case_insensitive (Some plants) = None).
  { unfold plant_set. destruct (bool_decide (plants = [])); [reflexivity|].
    rewrite filter_all_false; [reflexivity|].
    intros x Hx Hkeep. apply Hblank in Hx. rewrite Hx in Hkeep.
    rewrite andb_false_r in Hkeep. discriminate. }
  split; [exact Hnone|].
  rewrite !main_run.
  cbn [FilterBySku.plant FilterBySku.sku FilterBySku.sku_file
       FilterBySku.sku_file_column FilterBySku.case_insensitive
       FilterBySku.input_csv FilterBySku.output_csv FilterBySku.columns
       FilterBySku.csv_article_column FilterBySku.csv_plant_column
       FilterBySku.invert].
  rewrite Hnone. reflexivity.
Qed.

Lemma blank_plants_mean_no_secondary_filter_witness :
  (∀ p, p ∈ ["  "; ""] → Py.strip p = "")
  ∧ main scenario_fs
      (mk_args "in.csv" "out.csv" "article" "plant" (Some ["SKU1"]) None
               "article" "*" false false (Some ["  "; ""]))
    = main scenario_fs
        (mk_args "in.csv" "out.csv" "article" "plant" (Some ["SKU1"]) None
                 "article" "*" false false None).
Proof.
  assert (H : ∀ p, p ∈ ["  "; ""] → Py.strip p = "").
  { intros p Hp. apply list_elem_of_In in Hp. simpl in Hp.
    destruct Hp as [<-|[<-|[]]]; reflexivity. }
  split; [exact H|].
  exact (proj2 (blank_plants_mean_no_secondary_filter scenario_fs "in.csv"
                  "out.csv" "article" "plant" (Some ["SKU1"]) None "article"
                  "*" false false ["  "; ""] H)).
Defined.

(** *** The key-set builder *)

Lemma add_sku_values_union ci vs (acc : gset string) :
  add_sku_values ci vs acc = acc ∪ literal_keys ci vs.
Proof.
  unfold add_sku_values, literal_keys.
  destruct vs as [l|]; simpl; [|set_solver].
  revert acc. induction l as [|v l IH]; intros acc; simpl; [set_solver|].
  rewrite IH. rewrite filter_cons.
  destruct (Py.truthy (Py.strip v)) eqn:Ht.
  - apply PyFacts.truthy_true in Ht. rewrite decide_True by done.
    simpl. set_solver.
  - apply PyFacts.truthy_false in Ht. rewrite decide_False by (intros H; done).
    reflexivity.
Qed.

Lemma add_lines_union ci ls (acc : gset string) :
  add_lines ci ls acc = acc ∪ line_keys ci ls.
Proof.
  unfold add_lines, line_keys.
  revert acc. induction ls as [|v l IH]; intros acc; simpl; [set_solver|].
  rewrite IH. rewrite filter_cons.
  destruct (Py.truthy (Py.strip v)) eqn:Ht; simpl.
  - apply PyFacts.truthy_true in Ht.
    destruct (Py.startswith (Py.strip v) "#") eqn:Hs; simpl.
    + rewrite decide_False by (intros [_ H]; congruence). reflexivity.
    + rewrite decide_True by done. simpl. set_solver.
  - apply PyFacts.truthy_false in Ht.
    rewrite decide_False by (intros [H _]; done). reflexivity.
Qed.

Lemma add_column_union ci col rows (acc : gset string) :
  add_column ci col rows acc = acc ∪ column_keys ci col rows.
Proof.
  unfold add_column, column_keys.
  revert acc. induction rows as [|rw l IH]; intros acc; simpl; [set_solver|].
  rewrite IH. rewrite filter_cons.
  destruct (Py.truthy (Py.strip (Py.or_empty (row_get rw col)))) eqn:Ht.
  - apply PyFacts.truthy_true in Ht. rewrite decide_True by done.
    simpl. set_solver.
  - apply PyFacts.truthy_false in Ht. rewrite decide_False by (intros H; done).
    reflexivity.
Qed.

Lemma normalized_survivors_nonempty ci (P : string → Prop)
    `{∀ s, Decision (P s)} (l : list string) :
  (∀ s, P s → s ≠ "") →
  "" ∉ (list_to_set (Py.fold_case ci <$> filter P l) : gset string).
Proof.
  intros HP Hin. apply elem_of_list_to_set in Hin.
  apply list_elem_of_fmap in Hin. destruct Hin as [s [Hs Hin]].
  apply list_elem_of_filter in Hin. destruct Hin as [Hp _].
  symmetry in Hs. apply fold_case_empty in Hs. by apply (HP s).
Qed.

Lemma literal_keys_nonempty ci vs : "" ∉ literal_keys ci vs.
Proof. apply normalized_survivors_nonempty. auto. Qed.

Lemma line_keys_nonempty ci ls : "" ∉ line_keys ci ls.
Proof. apply normalized_survivors_nonempty. intros s [H _]. exact H. Qed.

Lemma column_keys_nonempty ci col rows : "" ∉ column_keys ci col rows.
Proof. apply normalized_survivors_nonempty. auto. Qed.

Lemma has_column_spec (h : list string) (c : string) :
  has_column h c = true ↔ c ∈ h.
Proof.
  destruct h as [|x h]; simpl.
  - split; [discriminate|]. intros Hc. by apply not_elem_of_nil in Hc.
  - apply in_list_true.
Qed.

(** What [read_sku_list] returns for a key file that exists: the union
    of the literal keys and of the keys of the file, without the empty
    string. The keys of the file are the line keys when the structured
    reader finds no header or a header that does not hold the column;
    they are the non-empty trimmed values of the column when the header
    holds it and the reader reaches the end; and when the reader raises
    [csv.Error] after such a header, they are the column values read so
    far together with the line keys. *)
Lemma read_sku_list_file_keys
    (fsys : gmap string file) (sku_values : option (list string))
    (path : string) (f : file) (sku_file_column : string)
    (case_insensitive : bool) :
  path ≠ "" →
  fsys !! path = Some f →
  ∃ file_keys : gset string,
    read_sku_list fsys sku_values (Some path) sku_file_column case_insensitive
      = inr (literal_keys case_insensitive sku_values ∪ file_keys)
    ∧ ("" ∉ literal_keys case_insensitive sku_values ∪ file_keys)
    ∧ ((∀ h rest, records (parse f ",") = h :: rest → sku_file_column ∉ h) →
       file_keys = line_keys case_insensitive (lines f))
    ∧ (∀ h rest, records (parse f ",") = h :: rest → sku_file_column ∈ h →
       file_keys =
         if fails (parse f ",")
         then column_keys case_insensitive sku_file_column (dict_rows h rest)
              ∪ line_keys case_insensitive (lines f)
         else column_keys case_insensitive sku_file_column (dict_rows h rest)).
Proof.
  intros Hpath Hf.
  assert (Hlit : add_sku_values case_insensitive sku_values ∅
                 = literal_keys case_insensitive sku_values).
  { rewrite add_sku_values_union. set_solver. }
  pose proof (literal_keys_nonempty case_insensitive sku_values) as Hl.
  pose proof (line_keys_nonempty case_insensitive (lines f)) as Hn.
  unfold read_sku_list. rewrite Hlit.
  apply PyFacts.truthy_true in Hpath. rewrite Hpath. simpl negb. cbv iota.
  rewrite Hf.
  destruct (records (parse f ",")) as [|h rest].
  - exists (line_keys case_insensitive (lines f)).
    rewrite add_lines_union.
    split; [reflexivity|]. split; [set_solver|].
    split; [done|]. intros h rest [=].
  - pose proof (column_keys_nonempty case_insensitive sku_file_column
                  (dict_rows h rest)) as Hc.
    destruct (has_column h sku_file_column) eqn:Hhas.
    + apply has_column_spec in Hhas.
      destruct (fails (parse f ",")).
      * exists (column_keys case_insensitive sku_file_column (dict_rows h rest)
                ∪ line_keys case_insensitive (lines f)).
        rewrite add_lines_union, add_column_union.
        split; [f_equal; set_solver|]. split; [set_solver|]. split.
        { intros Hno. by destruct (Hno h rest eq_refl). }
        by intros h' rest' [= <- <-] _.
      * exists (column_keys case_insensitive sku_file_column (dict_rows h rest)).
        rewrite add_column_union.
        split; [reflexivity|]. split; [set_solver|]. split.
        { intros Hno. by destruct (Hno h rest eq_refl). }
        by intros h' rest' [= <- <-] _.
    + assert (Hno : sku_file_column ∉ h).
      { intros Hin. apply has_column_spec in Hin. congruence. }
      exists (line_keys case_insensitive (lines f)).
      rewrite add_lines_union.
      split; [reflexivity|]. split; [set_solver|].
      split; [done|]. by intros h' rest' [= <- <-] Hin.
Qed.

(** a string that begins with a character that is not a blank keeps it
    when trimmed *)
Lemma strip_keeps_first (c : ascii) (s : string) :
  Py.is_space c = false → ∃ r, Py.strip (String c s) = String c r.
Proof.
  intros Hc. unfold Py.strip. cbn [Py.lstrip]. rewrite Hc. cbn [Py.rstrip].
  destruct (Py.rstrip s) as [|c' r]; [|by eexists].
  rewrite Hc. by eexists.
Qed.

Lemma length_string_of_repeat (c : ascii) (n : nat) :
  String.length (string_of_list_ascii (repeat c n)) = n.
Proof. induction n as [|n IH]; simpl; [reflexivity|]. by rewrite IH. Qed.

Lemma length_of_run (c : ascii) (n : N) :
  N.of_nat (String.length
              (String c (string_of_list_ascii (repeat c (N.to_nat n)))))
  = N.succ n.
Proof.
  cbn [String.length]. rewrite length_string_of_repeat.
  by rewrite Nat2N.inj_succ, N2Nat.id.
Qed.

(** the keys of a key file with the header article, qty, the row SKU1, 2
    and a last line [bad] on which the structured reader fails, for a
    line that begins with the letter x *)
Lemma keys_of_broken_file (bad r : string) :
  Py.strip bad = String "x" r →
  let f := {| sniffed := Some ",";
              parse := λ _, {| records := [["article"; "qty"]; ["SKU1"; "2"]];
                               fails := true |};
              lines := ["article,qty"; "SKU1,2"; bad] |} in
  let ls := ["article,qty"; "SKU1,2"; bad] in
  read_sku_list {[ "broken.csv" := f ]} None (Some "broken.csv") "article" false
    = inr ({[ "SKU1" ]} ∪ line_keys false ls)
  ∧ ("article,qty" ∈ line_keys false ls)
  ∧ ("SKU1,2" ∈ line_keys false ls)
  ∧ ("SKU1" ∉ line_keys false ls)
  ∧ read_sku_list {[ "broken.csv" := f ]} None (Some "broken.csv") "article"
      false
    ≠ inr (literal_keys false None ∪ line_keys false ls).
Proof.
  intros Hr f ls.
  assert (Hmem : ∀ k, k ∈ line_keys false ls ↔
            (k = "article,qty" ∨ k = "SKU1,2"
             ∨ (k = Py.strip bad ∧ Py.startswith (Py.strip bad) "#" = false))).
  { intros k. unfold line_keys, ls.
    rewrite elem_of_list_to_set, list_elem_of_fmap.
    cbn [fmap list_fmap Py.fold_case].
    change (Py.strip "article,qty") with "article,qty".
    change (Py.strip "SKU1,2") with "SKU1,2".
    split.
    - intros (s & -> & Hs). apply list_elem_of_filter in Hs.
      destruct Hs as [[_ Hstart] Hs].
      apply elem_of_cons in Hs. destruct Hs as [->|Hs]; [by left|].
      apply elem_of_cons in Hs. destruct Hs as [->|Hs]; [by right; left|].
      apply list_elem_of_singleton in Hs. subst s. by right; right.
    - intros [->|[->|[-> Hstart]]].
      + exists "article,qty". split; [reflexivity|].
        apply list_elem_of_filter. split; [by split|]. by left.
      + exists "SKU1,2". split; [reflexivity|].
        apply list_elem_of_filter. split; [by split|]. right. by left.
      + exists (Py.strip bad). split; [reflexivity|].
        apply list_elem_of_filter. split.
        * split; [by rewrite Hr|exact Hstart].
        * right. right. by left. }
  assert (Hno : "SKU1" ∉ line_keys false ls).
  { rewrite Hmem. intros [H|[H|[H _]]]; try discriminate H.
    rewrite Hr in H. discriminate H. }
  assert (Hlit : literal_keys false None = ∅) by reflexivity.
  assert (Hrun : read_sku_list {[ "broken.csv" := f ]} None (Some "broken.csv")
                   "article" false
                 = inr ({[ "SKU1" ]} ∪ line_keys false ls)).
  { destruct (read_sku_list_file_keys {[ "broken.csv" := f ]} None "broken.csv"
                f "article" false ltac:(done) (lookup_singleton_eq _ _))
      as (file_keys & Hread & _ & _ & Hcol).
    rewrite Hread.
    rewrite (Hcol ["article"; "qty"] [["SKU1"; "2"]] eq_refl)
      by (by left).
    cbn [fails parse f lines].
    assert (Hkeys : column_keys false "article"
                      (dict_rows ["article"; "qty"] [["SKU1"; "2"]])
                    = {[ "SKU1" ]}) by (vm_compute; reflexivity).
    rewrite Hkeys, Hlit. f_equal. apply (left_id_L ∅ (∪)). }
  split; [exact Hrun|].
  split; [apply Hmem; by left|].
  split; [apply Hmem; right; by left|].
  split; [exact Hno|].
  rewrite Hrun, Hlit, (left_id_L ∅ (∪)). intros Heq.
  assert (Hsame : {[ "SKU1" ]} ∪ line_keys false ls = line_keys false ls).
  { by apply (inj inr) in Heq. }
  apply Hno. rewrite <- Hsame. apply elem_of_union_l.
  by apply elem_of_singleton.
Qed.

(** C6. The key-set builder on a key file that the structured reader
    cannot read to the end. The file has the header article, qty, the row
    SKU1, 2 and a third line that is one field of 131073 characters, one
    more than the csv module accepts, so that [csv.Error] is raised after
    the row was read. The claim, and the comment of line 54, have the
    file treated as lines then: the keys of the file would be its line
    keys, among them the lines article,qty and SKU1,2. What
    [read_sku_list] returns is the line keys and SKU1, the value of the
    column read before the failure, which is not a line key of the file;
    so the result is not the union of the literal keys and the line
    keys. *)
Theorem csv_error_leaves_column_values_behind :
  (records (parse broken_key_file ",") = [["article"; "qty"]; ["SKU1"; "2"]]
   ∧ fails (parse broken_key_file ",") = true
   ∧ N.of_nat (String.length oversized_field) = 131073%N)
  ∧ read_sku_list broken_key_fs None (Some "broken.csv") "article" false
    = inr ({[ "SKU1" ]} ∪ line_keys false (lines broken_key_file))
  ∧ ("article,qty" ∈ line_keys false (lines broken_key_file))
  ∧ ("SKU1,2" ∈ line_keys false (lines broken_key_file))
  ∧ ("SKU1" ∉ line_keys false (lines broken_key_file))
  ∧ read_sku_list broken_key_fs None (Some "broken.csv") "article" false
    ≠ inr (literal_keys false None ∪ line_keys false (lines broken_key_file)).
Proof.
  split.
  { split; [reflexivity|]. split; [reflexivity|].
    exact (length_of_run "x" 131072). }
  destruct (strip_keeps_first "x" (string_of_list_ascii
              (repeat "x"%char (N.to_nat 131072))) eq_refl) as [r Hr].
  exact (keys_of_broken_file oversized_field r Hr).
Qed.

End FilterProps.

(** * Properties of the unique-value extractor *)

Module UniqueProps.
Import UniqueValues UniqueSpec.

(** the loop body never raises: it is [step] *)
Lemma count_value_step ci (val : string) (a : acc) :
  count_value ci val a = inr (step ci a val).
Proof.
  unfold count_value, step.
  destruct (Py.truthy val) eqn:Ht; simpl.
  - apply PyFacts.truthy_true in Ht. rewrite decide_False by done.
    destruct (counts a !! Py.fold_case ci val) as [c|] eqn:Hc.
    + rewrite Hc. reflexivity.
    + simpl. rewrite lookup_insert_eq. rewrite insert_insert_eq.
      reflexivity.
  - apply PyFacts.truthy_false in Ht. by rewrite decide_True.
Qed.

Lemma plain_values_cons_nil (rest : list (list string)) :
  plain_values ([] :: rest) = plain_values rest.
Proof. unfold plain_values. rewrite filter_cons. by rewrite decide_False by auto. Qed.

Lemma plain_values_cons c (r rest : list (list string)) (cs : list string) :
  plain_values ((c :: cs) :: rest)
  = Py.strip (Py.or_empty (Some c)) :: plain_values rest.
Proof. unfold plain_values. rewrite filter_cons. by rewrite decide_True by done. Qed.

Lemma plain_rows_run ci recs fl (a : acc) (s : st) :
  plain_rows ci recs fl a s =
    ({| pulled := pulled s + length recs; out_file := out_file s |},
     if fl then inl CsvError else inr (foldl (step ci) a (plain_values recs))).
Proof.
  revert a s. induction recs as [|r rest IH]; intros a s.
  - simpl. rewrite Nat.add_0_r. destruct s. destruct fl; reflexivity.
  - cbn [plain_rows]. unfold mbind, M_bind, pull at 1.
    destruct r as [|c cs].
    + rewrite plain_values_cons_nil, IH. simpl. do 2 f_equal. lia.
    + rewrite (plain_values_cons c rest rest cs). unfold lift at 1.
      rewrite count_value_step, IH. simpl. do 2 f_equal. lia.
Qed.

Lemma header_rows_run ci fn col recs fl (a : acc) (s : st) :
  header_rows ci fn col recs fl a s =
    ({| pulled := pulled s + length recs; out_file := out_file s |},
     if fl then inl CsvError
     else inr (foldl (step ci) a (header_values fn col recs))).
Proof.
  revert a s. induction recs as [|r rest IH]; intros a s.
  - simpl. rewrite Nat.add_0_r. destruct s. destruct fl; reflexivity.
  - cbn [header_rows]. unfold mbind, M_bind, pull at 1.
    unfold header_values in *.
    destruct r as [|c cs].
    + rewrite FilterProps.dict_rows_cons_nil, IH. simpl. do 2 f_equal. lia.
    + rewrite FilterProps.dict_rows_cons by done. unfold lift at 1.
      rewrite count_value_step, IH. simpl. do 2 f_equal. lia.
Qed.

(** *** The accumulators describe the values seen *)

Lemma hits_snoc ci (k v : string) (vals : list string) :
  hits ci k (vals ++ [v]) =
    (hits ci k vals ++
       if decide (v ≠ "" ∧ Py.fold_case ci v = k) then [v] else [])%list.
Proof.
  unfold hits. rewrite filter_app. reflexivity.
Qed.

Lemma describes_init ci : describes ci [] acc0.
Proof.
  unfold describes, acc0, hits. simpl. repeat split.
  - constructor.
  - intros Hk. by apply not_elem_of_nil in Hk.
  - done.
Qed.

Lemma describes_step ci (vals : list string) (a : acc) (v : string) :
  describes ci vals a → describes ci (vals ++ [v]) (step ci a v).
Proof.
  intros (Hnd & Hord & Hcnt & Hdis). unfold step.
  destruct (decide (v = "")) as [Hv|Hv].
  { assert (Hsame : ∀ k, hits ci k (vals ++ [v]) = hits ci k vals).
    { intros k. rewrite hits_snoc.
      rewrite decide_False by (intros [H _]; done). apply app_nil_r. }
    unfold describes. setoid_rewrite Hsame. done. }
  set (key := Py.fold_case ci v).
  assert (Hkey : hits ci key (vals ++ [v]) = (hits ci key vals ++ [v])%list).
  { rewrite hits_snoc. by rewrite decide_True. }
  assert (Hother : ∀ k, k ≠ key → hits ci k (vals ++ [v]) = hits ci k vals).
  { intros k Hk. rewrite hits_snoc.
    rewrite decide_False; [apply app_nil_r|]. intros [_ H]. by apply Hk. }
  pose proof (Hcnt key) as Hck.
  destruct (counts a !! key) as [c|] eqn:Hc.
  - (* the key was seen before *)
    destruct (hits ci key vals) as [|h0 hs] eqn:Hh; [discriminate|].
    injection Hck as ->.
    unfold describes. cbn [counts order display]. repeat split.
    + exact Hnd.
    + intros Hk. destruct (decide (k = key)) as [->|Hne].
      * rewrite Hkey. done.
      * rewrite Hother by done. by apply Hord.
    + intros Hk. destruct (decide (k = key)) as [->|Hne].
      * apply Hord. by rewrite Hh.
      * rewrite Hother in Hk by done. by apply Hord.
    + intros k. destruct (decide (k = key)) as [->|Hne].
      * rewrite lookup_insert_eq, Hkey. simpl.
        f_equal. rewrite length_app. simpl. lia.
      * rewrite lookup_insert_ne by done. rewrite Hother by done. apply Hcnt.
    + intros k. destruct (decide (k = key)) as [->|Hne].
      * rewrite Hkey, Hdis, Hh. reflexivity.
      * rewrite Hother by done. apply Hdis.
  - (* the key is new *)
    destruct (hits ci key vals) as [|h0 hs] eqn:Hh; [|discriminate].
    assert (Hfresh : key ∉ order a).
    { intros Hin. apply Hord in Hin. by rewrite Hh in Hin. }
    unfold describes. cbn [counts order display]. repeat split.
    + apply NoDup_app. repeat split; [exact Hnd| |apply NoDup_singleton].
      intros x Hx Hx'. apply list_elem_of_singleton in Hx'. by subst.
    + intros Hk. destruct (decide (k = key)) as [->|Hne].
      * rewrite Hkey. done.
      * rewrite Hother by done. apply Hord.
        apply elem_of_app in Hk. destruct Hk as [Hk|Hk]; [done|].
        by apply list_elem_of_singleton in Hk.
    + intros Hk. apply elem_of_app. destruct (decide (k = key)) as [->|Hne].
      * right. by apply list_elem_of_singleton.
      * left. rewrite Hother in Hk by done. by apply Hord.
    + intros k. destruct (decide (k = key)) as [->|Hne].
      * rewrite lookup_insert_eq, Hkey. reflexivity.
      * rewrite lookup_insert_ne by done. rewrite Hother by done. apply Hcnt.
    + intros k. destruct (decide (k = key)) as [->|Hne].
      * rewrite lookup_insert_eq, Hkey. reflexivity.
      * rewrite lookup_insert_ne by done. rewrite Hother by done. apply Hdis.
Qed.

Lemma describes_foldl ci (vals : list string) :
  describes ci vals (foldl (step ci) acc0 vals).
Proof.
  induction vals as [|v vals IH] using rev_ind.
  - apply describes_init.
  - rewrite foldl_app. simpl. by apply describes_step.
Qed.

Lemma describes_consistent ci (vals : list string) (a : acc) :
  describes ci vals a → consistent a.
Proof.
  intros (Hnd & Hord & Hcnt & Hdis). unfold consistent.
  split; [exact Hnd|]. split; [|split].
  - apply set_eq. intros k. rewrite elem_of_list_to_set, elem_of_dom, Hord, Hcnt.
    destruct (hits ci k vals); split; intros H; try done;
      try (by destruct H); by eexists.
  - apply set_eq. intros k. rewrite !elem_of_dom, Hcnt, Hdis.
    destruct (hits ci k vals); simpl; split; intros [? ?]; try done; by eexists.
  - intros k c. rewrite Hcnt. destruct (hits ci k vals); [done|].
    intros [= <-]. simpl. lia.
Qed.

(** *** The pass over the file *)

Lemma accumulate_run fsys inp column no_header ci (s : st) :
  accumulate fsys inp column no_header ci s =
    match fsys !! inp with
    | None => (s, inl (FileNotFoundError inp))
    | Some f =>
        let strm := parse f (sniff_delimiter fsys inp ",") in
        let ending := λ a : acc,
          if fails strm then inl CsvError else (inr a : res acc) in
        if no_header then
          ({| pulled := pulled s + length (records strm);
              out_file := out_file s |},
           ending (foldl (step ci) acc0 (plain_values (records strm))))
        else
          match records strm with
          | [] => ({| pulled := pulled s + 0; out_file := out_file s |},
                   ending acc0)
          | h :: rest =>
              let col := resolve_column column h in
              if Py.in_list col h then
                ({| pulled := S (pulled s) + length rest;
                    out_file := out_file s |},
                 ending (foldl (step ci) acc0 (header_values h col rest)))
              else
                ({| pulled := S (pulled s); out_file := out_file s |},
                 inl (ValueError col (Some h)))
          end
    end.
Proof.
  unfold accumulate. destruct (fsys !! inp) as [f|]; [|reflexivity].
  cbv zeta. set (strm := parse f (sniff_delimiter fsys inp ",")).
  destruct no_header; cbn [negb].
  - apply plain_rows_run.
  - unfold mbind, M_bind, read_fieldnames.
    destruct (records strm) as [|h rest] eqn:Hrec.
    + destruct (fails strm) eqn:Hf.
      * unfold raise. destruct s. simpl. by rewrite Nat.add_0_r.
      * unfold mret, M_ret. rewrite plain_rows_run. reflexivity.
    + unfold mbind, M_bind, pull at 1, mret, M_ret.
      destruct (Py.in_list (resolve_column column h) h); cbn [negb].
      * rewrite header_rows_run. reflexivity.
      * reflexivity.
Qed.

(** what a pass returns is the fold of [step] over the observed values *)
Lemma accumulate_observed fsys inp column no_header ci (s : st) (a : acc) :
  (accumulate fsys inp column no_header ci s).2 = inr a →
  a = foldl (step ci) acc0 (observed fsys inp column no_header).
Proof.
  rewrite accumulate_run. unfold observed.
  destruct (fsys !! inp) as [f|]; [|discriminate].
  cbv zeta. set (strm := parse f (sniff_delimiter fsys inp ",")).
  destruct no_header.
  - simpl. destruct (fails strm); [discriminate|]. by intros [= <-].
  - destruct (records strm) as [|h rest].
    + simpl. destruct (fails strm); [discriminate|]. by intros [= <-].
    + destruct (Py.in_list (resolve_column column h) h); simpl; [|discriminate].
      destruct (fails strm); [discriminate|]. by intros [= <-].
Qed.

Lemma accumulate_describes fsys inp column no_header ci (s : st) (a : acc) :
  (accumulate fsys inp column no_header ci s).2 = inr a →
  describes ci (observed fsys inp column no_header) a.
Proof.
  intros H. apply accumulate_observed in H. subst a. apply describes_foldl.
Qed.

Lemma consistent_step ci (a : acc) (v : string) :
  consistent a → consistent (step ci a v).
Proof.
  intros (Hnd & Hord & Hdom & Hcnt). unfold step.
  destruct (decide (v = "")); [done|].
  set (key := Py.fold_case ci v).
  destruct (counts a !! key) as [c|] eqn:Hc; unfold consistent;
    cbn [counts order display].
  - assert (Hin : key ∈ dom (counts a)) by (apply elem_of_dom; eauto).
    repeat split.
    + exact Hnd.
    + rewrite dom_insert_L. set_solver.
    + rewrite dom_insert_L. set_solver.
    + intros k c'. destruct (decide (k = key)) as [->|Hne].
      * rewrite lookup_insert_eq. intros [= <-]. apply Hcnt in Hc. lia.
      * rewrite lookup_insert_ne by done. apply Hcnt.
  - assert (Hout : key ∉ dom (counts a)) by (by apply not_elem_of_dom).
    repeat split.
    + apply NoDup_app. repeat split; [exact Hnd| |apply NoDup_singleton].
      intros x Hx Hx'. apply list_elem_of_singleton in Hx'. subst x.
      apply Hout. rewrite <- Hord. by apply elem_of_list_to_set.
    + rewrite list_to_set_app_L, dom_insert_L. simpl. set_solver.
    + rewrite !dom_insert_L. by rewrite Hdom.
    + intros k c'. destruct (decide (k = key)) as [->|Hne].
      * rewrite lookup_insert_eq. intros [= <-]. lia.
      * rewrite lookup_insert_ne by done. apply Hcnt.
Qed.

(** C9. The accumulators are consistent when the pass starts, every row
    keeps them so (and the loop body always returns), and so they are
    when the pass ends: the order list has no duplicate, its keys are
    the keys of the counts table, which are the keys of the display
    table, and every count is at least 1. *)
Theorem accumulators_stay_consistent :
  consistent acc0
  ∧ (∀ (case_insensitive : bool) (val : string) (a : acc),
       consistent a →
       ∃ a', count_value case_insensitive val a = inr a' ∧ consistent a')
  ∧ (∀ (fsys : gmap string file) (input_csv : string) (column : option string)
       (no_header case_insensitive : bool) (s : st),
       match (accumulate fsys input_csv column no_header case_insensitive s).2 with
       | inr a => consistent a
       | inl _ => True
       end).
Proof.
  split; [|split].
  - apply (describes_consistent false []). apply describes_init.
  - intros ci val a Ha. exists (step ci a val).
    split; [apply count_value_step|by apply consistent_step].
  - intros fsys inp column no_header ci s.
    destruct (accumulate fsys inp column no_header ci s).2 as [e|a] eqn:Hrun;
      [done|].
    eapply describes_consistent. eapply accumulate_describes. exact Hrun.
Qed.

Lemma accumulators_stay_consistent_witness :
  consistent acc0 ∧
  ∃ a', count_value true "B" acc0 = inr a' ∧ consistent a'.
Proof.
  destruct accumulators_stay_consistent as (H0 & Hstep & _).
  split; [exact H0|]. exact (Hstep true "B" acc0 H0).
Defined.

(** *** The order of strings and the sort *)

Lemma string_compare_refl (s : string) : String.compare s s = Eq.
Proof.
  induction s as [|a s IH]; [reflexivity|]. simpl.
  unfold Ascii.compare. by rewrite N.compare_refl.
Qed.

Lemma string_leb_refl (s : string) : String.leb s s = true.
Proof. unfold String.leb. by rewrite string_compare_refl. Qed.

Lemma string_compare_trans (s1 s2 s3 : string) :
  String.compare s1 s2 ≠ Gt → String.compare s2 s3 ≠ Gt →
  String.compare s1 s3 ≠ Gt.
Proof.
  revert s2 s3. induction s1 as [|a s1 IH]; intros [|b s2] [|c s3];
    simpl; try done.
  unfold Ascii.compare.
  destruct (N.compare_spec (N_of_ascii a) (N_of_ascii b)) as [Hab|Hab|Hab];
    destruct (N.compare_spec (N_of_ascii b) (N_of_ascii c)) as [Hbc|Hbc|Hbc];
    try done; intros H12 H23.
  - rewrite Hab, Hbc, N.compare_refl. by apply (IH s2 s3).
  - rewrite Hab. apply N.compare_lt_iff in Hbc. by rewrite Hbc.
  - rewrite <- Hbc. apply N.compare_lt_iff in Hab. by rewrite Hab.
  - assert (Hac : (N_of_ascii a < N_of_ascii c)%N) by lia.
    apply N.compare_lt_iff in Hac. by rewrite Hac.
Qed.

Lemma string_leb_trans (s1 s2 s3 : string) :
  String.leb s1 s2 = true → String.leb s2 s3 = true → String.leb s1 s3 = true.
Proof.
  unfold String.leb. intros H12 H23.
  pose proof (string_compare_trans s1 s2 s3) as Ht.
  destruct (String.compare s1 s2); destruct (String.compare s2 s3);
    destruct (String.compare s1 s3); try done; exfalso; by apply Ht.
Qed.

Section Sort.
Variable key : string → string.

Lemma key_le_total (x y : string) : key_le key x y ∨ key_le key y x.
Proof. apply String.leb_total. Qed.

Lemma key_le_trans (x y z : string) :
  key_le key x y → key_le key y z → key_le key x z.
Proof. apply string_leb_trans. Qed.

Lemma insert_by_perm (x : string) (l : list string) :
  Permutation (insert_by key x l) (x :: l).
Proof.
  induction l as [|y l IH]; simpl; [done|].
  destruct (String.leb (key x) (key y)); [done|].
  rewrite IH. apply perm_swap.
Qed.

Lemma sorted_perm (l : list string) : Permutation (sorted key l) l.
Proof.
  induction l as [|x l IH]; simpl; [done|].
  rewrite insert_by_perm. by constructor.
Qed.

Lemma insert_by_sorted (x : string) (l : list string) :
  StronglySorted (key_le key) l → StronglySorted (key_le key) (insert_by key x l).
Proof.
  induction 1 as [|y l Hl IH Hy]; simpl.
  - repeat constructor.
  - destruct (String.leb (key x) (key y)) eqn:Hxy.
    + constructor; [by constructor|]. constructor; [exact Hxy|].
      eapply Forall_impl; [exact Hy|]. intros z Hz.
      by apply (key_le_trans x y z).
    + constructor; [exact IH|].
      rewrite insert_by_perm. constructor; [|exact Hy].
      destruct (key_le_total x y) as [H|H]; [|exact H].
      unfold key_le in H. congruence.
Qed.

Lemma sorted_sorted (l : list string) : StronglySorted (key_le key) (sorted key l).
Proof.
  induction l as [|x l IH]; simpl; [constructor|]. by apply insert_by_sorted.
Qed.

(** stability: among the elements of one sort key the order is kept *)
Lemma insert_by_filter (k x : string) (l : list string) :
  filter (λ y, key y = k) (insert_by key x l)
  = filter (λ y, key y = k) (x :: l).
Proof.
  induction l as [|y l IH]; simpl; [done|].
  destruct (String.leb (key x) (key y)) eqn:Hxy; [done|].
  rewrite filter_cons, IH, !filter_cons.
  destruct (decide (key y = k)) as [Hy|Hy];
    destruct (decide (key x = k)) as [Hx|Hx]; try done.
  rewrite <- Hx in Hy. rewrite Hy, string_leb_refl in Hxy. discriminate.
Qed.

Lemma sorted_stable (k : string) (l : list string) :
  filter (λ y, key y = k) (sorted key l) = filter (λ y, key y = k) l.
Proof.
  induction l as [|x l IH]; simpl; [done|].
  rewrite insert_by_filter, !filter_cons, IH. done.
Qed.







End Sort.

(** *** Selection and sort *)

Lemma display_of_total (d : gmap string string) (ks : list string) :
  (∀ k, k ∈ ks → is_Some (d !! k)) →
  display_of d ks = inr ((λ k, default "" (d !! k)) <$> ks).
Proof.
  induction ks as [|k ks IH]; intros Hall; simpl; [reflexivity|].
  destruct (Hall k) as [v Hv]; [left|]. rewrite Hv.
  rewrite IH by (intros k' Hk'; apply Hall; by right). reflexivity.
Qed.

(** under [describes], the display value of a key of the order list is
    the first observed value that normalizes to the key *)
Lemma describes_display ci vals (a : acc) (k : string) :
  describes ci vals a → k ∈ order a →
  ∃ v, display a !! k = Some v ∧ head (hits ci k vals) = Some v
       ∧ v ≠ "" ∧ Py.fold_case ci v = k.
Proof.
  intros (_ & Hord & _ & Hdis) Hk. apply Hord in Hk.
  destruct (hits ci k vals) as [|v hs] eqn:Hh; [done|].
  exists v. rewrite Hdis, Hh. split; [done|]. split; [done|].
  assert (Hv : v ∈ hits ci k vals) by (rewrite Hh; left).
  unfold hits in Hv. apply list_elem_of_filter in Hv. tauto.
Qed.

Lemma selected_sublist once_only (a : acc) :
  sublist (selected once_only a) (order a).
Proof. destruct once_only; simpl; [apply sublist_filter|done]. Qed.

Lemma select_run ci vals (a : acc) (once_only : bool) :
  describes ci vals a →
  select once_only a = inr (shown a (selected once_only a)).
Proof.
  intros Hd.
  assert (Hall : ∀ k, k ∈ selected once_only a → is_Some (display a !! k)).
  { intros k Hk. eapply elem_of_sublist in Hk; [|apply selected_sublist].
    destruct (describes_display ci vals a k Hd Hk) as (v & Hv & _). eauto. }
  unfold select, selected in *. destruct once_only; by apply display_of_total.
Qed.

Lemma finish_run ci vals (a : acc) (sort_values once_only : bool) :
  describes ci vals a →
  finish ci sort_values once_only a =
    inr (if sort_values
         then sorted (sort_key ci) (shown a (selected once_only a))
         else shown a (selected once_only a)).
Proof.
  intros Hd. unfold finish. rewrite (select_run ci vals) by done.
  by destruct sort_values.
Qed.

Lemma read_unique_values_run fsys inp column no_header ci sortv once_only s :
  read_unique_values fsys inp column no_header ci sortv once_only s =
    match (accumulate fsys inp column no_header ci s).2 with
    | inl e => ((accumulate fsys inp column no_header ci s).1, inl e)
    | inr a =>
        ((accumulate fsys inp column no_header ci s).1,
         inr (if sortv
              then sorted (sort_key ci) (shown a (selected once_only a))
              else shown a (selected once_only a)))
    end.
Proof.
  unfold read_unique_values, mbind, M_bind, lift.
  destruct (accumulate fsys inp column no_header ci s) as [s' [e|a]] eqn:Hrun;
    [reflexivity|].
  simpl. f_equal. apply (finish_run ci (observed fsys inp column no_header)).
  apply (accumulate_describes fsys inp column no_header ci s). by rewrite Hrun.
Qed.

Lemma shown_keys ci vals (a : acc) (ks : list string) :
  describes ci vals a → (∀ k, k ∈ ks → k ∈ order a) →
  Py.fold_case ci <$> shown a ks = ks.
Proof.
  intros Hd. induction ks as [|k ks IH]; intros Hall; [reflexivity|].
  unfold shown in *. simpl.
  destruct (describes_display ci vals a k Hd) as (v & Hv & _ & _ & Hk);
    [apply Hall; left|].
  rewrite Hv. simpl. rewrite Hk. f_equal.
  apply IH. intros k' Hk'. apply Hall. by right.
Qed.

Lemma shown_first ci vals (a : acc) (ks : list string) (v : string) :
  describes ci vals a → (∀ k, k ∈ ks → k ∈ order a) → v ∈ shown a ks →
  Py.fold_case ci v ∈ ks ∧ head (hits ci (Py.fold_case ci v) vals) = Some v.
Proof.
  intros Hd Hall Hv. unfold shown in Hv.
  apply list_elem_of_fmap in Hv. destruct Hv as (k & -> & Hk).
  destruct (describes_display ci vals a k Hd (Hall k Hk))
    as (v & Hv & Hhead & _ & Hkey).
  rewrite Hv. simpl. rewrite Hkey. done.
Qed.

Lemma once_iff ci vals (a : acc) (k : string) :
  describes ci vals a →
  once (counts a) k = true ↔ length (hits ci k vals) = 1%nat.
Proof.
  intros (_ & _ & Hcnt & _). unfold once. rewrite bool_decide_eq_true, Hcnt.
  destruct (hits ci k vals) as [|h hs]; simpl; lia.
Qed.



(** C4. With [sort_values] the result is the stable sort of the result
    without it, on the lower-cased display value when [case_insensitive]
    is set and on the display value itself otherwise: a permutation of
    the unsorted result, in ascending order of the sort keys, in which
    values of equal sort key keep their first-seen order. Every emitted
    value is the trimmed form of the first observed value that
    normalizes to its key, and no two emitted values share a key. On the
    column B, a, b with [case_insensitive] and [sort_values] the result
    is a, B. *)
Theorem sorted_output_by_folded_key
    (fsys : gmap string file) (input_csv : string) (column : option string)
    (no_header case_insensitive exactly_once : bool) (s : st) :
  let unsorted_run :=
    read_unique_values fsys input_csv column no_header case_insensitive
                       false exactly_once s in
  let sorted_run :=
    read_unique_values fsys input_csv column no_header case_insensitive
                       true exactly_once s in
  match unsorted_run.2 with
  | inl e => sorted_run = unsorted_run
  | inr values =>
      let key := sort_key case_insensitive in
      sorted_run = (unsorted_run.1, inr (sorted key values))
      ∧ (∀ v, key v = if case_insensitive then Py.lower v else v)
      ∧ Permutation (sorted key values) values
      ∧ StronglySorted (key_le key) (sorted key values)
      ∧ (∀ k, filter (λ v, key v = k) (sorted key values)
              = filter (λ v, key v = k) values)
      ∧ NoDup (Py.fold_case case_insensitive <$> values)
      ∧ (∀ v, v ∈ values →
           head (hits case_insensitive (Py.fold_case case_insensitive v)
                      (observed fsys input_csv column no_header)) = Some v)
  end
  ∧ read_unique_values scenario_e_fs "e.csv" None false true true false st0
    = ({| pulled := 4; out_file := None |}, inr ["a"; "B"]).
Proof.
  split; [|vm_compute; reflexivity].
  rewrite !read_unique_values_run.
  destruct (accumulate fsys input_csv column no_header case_insensitive s)
    as [s' [e|a]] eqn:Hrun; simpl; [reflexivity|].
  assert (Hd : describes case_insensitive
                 (observed fsys input_csv column no_header) a).
  { apply (accumulate_describes fsys input_csv column no_header
             case_insensitive s). by rewrite Hrun. }
  assert (Hks : ∀ k, k ∈ selected exactly_once a → k ∈ order a).
  { intros k Hk. eapply elem_of_sublist; [exact Hk|apply selected_sublist]. }
  split; [reflexivity|]. split; [reflexivity|].
  split; [apply sorted_perm|]. split; [apply sorted_sorted|].
  split; [intros k; apply sorted_stable|]. split.
  - rewrite (shown_keys _ _ _ _ Hd Hks).
    eapply sublist_NoDup; [|apply selected_sublist]. apply Hd.
  - intros v Hv. by apply (shown_first _ _ _ _ _ Hd Hks Hv).
Qed.


End UniqueProps.

(** * Validation comes before streaming *)

Module ValidationProps.
Import FilterBySku FilterSpec UniqueValues UniqueSpec.

(** The claim C7 as it is worded, at three inputs where a column that
    the header lacks is given and no [ValueError] is raised. On the
    scenario input with the match set SKU1: a secondary set SYD with the
    secondary column given as the empty string (the guard of line 92
    tests the truth value of the column name), where the run writes the
    header and the two rows of SKU1 and returns 2; and an empty secondary
    set with the secondary column depot (the same guard tests the truth
    value of the set), where the run writes the header and returns 0. On
    the one-column input of the sorting scenario: the extractor asked for
    the column with the empty name (line 57 takes the first column then),
    which returns the three values. *)
Lemma unchecked_columns_do_not_raise :
  let filter_run := λ (plant_col : string) (plant_values : gset string),
    stream_filter_csv scenario_fs "in.csv" "out.csv" "article" {[ "SKU1" ]}
      (Some plant_col) (Some plant_values) None false false st0 in
  let extractor_run :=
    read_unique_values scenario_e_fs "e.csv" (Some "") false false false false
      st0 in
  ¬ (("" ∉ scenario_header) →
     ∃ s' col found,
       filter_run "" {[ "SYD" ]} = (s', inl (ValueError col found)))
  ∧ ¬ (("depot" ∉ scenario_header) →
       ∃ s' col found, filter_run "depot" ∅ = (s', inl (ValueError col found)))
  ∧ ¬ (("" ∉ ["value"]) →
       ∃ s' col found, extractor_run = (s', inl (ValueError col found)))
  ∧ filter_run "" {[ "SYD" ]}
    = ({| pulled := 4;
          out_file := Some [scenario_header; ["SKU1"; "SYD"; "5"];
                            ["SKU1"; "MEL"; "2"]] |}, inr 2)
  ∧ filter_run "depot" ∅
    = ({| pulled := 4; out_file := Some [scenario_header] |}, inr 0)
  ∧ extractor_run = ({| pulled := 4; out_file := None |}, inr ["B"; "a"; "b"]).
Proof.
  intros filter_run extractor_run.
  assert (H1 : filter_run "" {[ "SYD" ]}
               = ({| pulled := 4;
                     out_file := Some [scenario_header; ["SKU1"; "SYD"; "5"];
                                       ["SKU1"; "MEL"; "2"]] |}, inr 2))
    by (vm_compute; reflexivity).
  assert (H2 : filter_run "depot" ∅
               = ({| pulled := 4; out_file := Some [scenario_header] |}, inr 0))
    by (vm_compute; reflexivity).
  assert (H3 : extractor_run
               = ({| pulled := 4; out_file := None |}, inr ["B"; "a"; "b"]))
    by (vm_compute; reflexivity).
  assert (Hheader : ∀ c, c ≠ "article" → c ≠ "plant" → c ≠ "qty" →
                         c ∉ scenario_header).
  { intros c Ha Hp Hq Hin. apply list_elem_of_In in Hin. simpl in Hin.
    destruct Hin as [H|[H|[H|[]]]]; congruence. }
  split; [|split; [|split]].
  - intros Hclaim. destruct Hclaim as (s' & col & found & Hrun).
    + by apply Hheader.
    + rewrite H1 in Hrun. discriminate Hrun.
  - intros Hclaim. destruct Hclaim as (s' & col & found & Hrun).
    + by apply Hheader.
    + rewrite H2 in Hrun. discriminate Hrun.
  - intros Hclaim. destruct Hclaim as (s' & col & found & Hrun).
    + intros Hin. apply list_elem_of_singleton in Hin. discriminate Hin.
    + rewrite H3 in Hrun. discriminate Hrun.
  - done.
Qed.

(** C7, amended. When the header of the input lacks the primary column,
    or lacks the secondary column while a secondary filter is given with a
    non-empty secondary set and a non-empty secondary column name, the
    row filter raises [ValueError] in a state where only the header
    record was pulled from the reader and the output file, though opened,
    holds no record, not even a header. When the extractor finds a header
    and the requested column, whose name is not empty, is not in it, it
    raises [ValueError] in a state where only the header record was
    pulled. *)
Theorem validation_precedes_streaming :
  (∀ (fsys : gmap string file) (input_csv output_csv article_col : string)
     (match_values : gset string) (plant_col : option string)
     (plant_values : option (gset string)) (select_columns : option (list string))
     (case_insensitive invert : bool) (s : st) (strm : csv_stream)
     (h : list string),
     source_stream fsys input_csv output_csv = Some strm →
     head (records strm) = Some h →
     (article_col ∉ h
      ∨ ∃ c vals, plant_col = Some c ∧ plant_values = Some vals
                  ∧ c ≠ "" ∧ vals ≠ ∅ ∧ c ∉ h) →
     ∃ col,
       (col = article_col ∨ plant_col = Some col) ∧ (col ∉ h) ∧
       stream_filter_csv fsys input_csv output_csv article_col match_values
         plant_col plant_values select_columns case_insensitive invert s
       = ({| pulled := S (pulled s); out_file := Some [] |},
          inl (ValueError col (Some h))))
  ∧
  (∀ (fsys : gmap string file) (input_csv : string) (f : file) (c : string)
     (case_insensitive sort_values exactly_once : bool) (s : st)
     (h : list string),
     fsys !! input_csv = Some f →
     head (records (parse f (sniff_delimiter fsys input_csv ","))) = Some h →
     c ≠ "" → c ∉ h →
     read_unique_values fsys input_csv (Some c) false case_insensitive
                        sort_values exactly_once s
     = ({| pulled := S (pulled s); out_file := out_file s |},
        inl (ValueError c (Some h)))).
Proof.
  split.
  - intros fsys inp outp ac mv pc pv sel ci inv s strm h Hsrc Hhead Hmiss.
    rewrite FilterProps.stream_filter_csv_run, Hsrc.
    destruct (records strm) as [|h' rest]; [discriminate|].
    injection Hhead as ->. cbv zeta.
    destruct (Py.in_list ac h) eqn:Hac; cbn [negb].
    + apply FilterProps.in_list_true in Hac.
      destruct Hmiss as [Hmiss|(c & vals & -> & -> & Hc & Hvals & Hch)];
        [done|].
      unfold missing_plant_column.
      rewrite bool_decide_eq_false_2 by done.
      apply PyFacts.truthy_true in Hc. rewrite Hc.
      apply FilterProps.in_list_false in Hch. rewrite Hch. simpl.
      exists c. split; [by right|]. split; [|reflexivity].
      by apply FilterProps.in_list_false.
    + exists ac. split; [by left|]. split; [|reflexivity].
      by apply FilterProps.in_list_false.
  - intros fsys inp f c ci sortv once_only s h Hf Hhead Hc Hch.
    rewrite UniqueProps.read_unique_values_run, UniqueProps.accumulate_run, Hf.
    cbv zeta.
    destruct (records (parse f (sniff_delimiter fsys inp ","))) as [|h' rest];
      [discriminate|].
    injection Hhead as ->.
    assert (Hcol : resolve_column (Some c) h = c).
    { unfold resolve_column. apply PyFacts.truthy_true in Hc. by rewrite Hc. }
    rewrite Hcol. apply FilterProps.in_list_false in Hch. rewrite Hch.
    reflexivity.
Qed.

Lemma validation_precedes_streaming_witness :
  source_stream scenario_fs "in.csv" "out.csv"
    = Some {| records := scenario_records; fails := false |}
  ∧ (("sku" ∉ scenario_header) ∧
     ∃ col,
       stream_filter_csv scenario_fs "in.csv" "out.csv" "sku" {[ "SKU1" ]}
         (Some "plant") None None false false st0
       = ({| pulled := 1; out_file := Some [] |},
          inl (ValueError col (Some scenario_header))))
  ∧ (("depot" ∉ scenario_header) ∧
     ∃ col,
       (col = "article" ∨ Some "depot" = Some col) ∧ (col ∉ scenario_header) ∧
       stream_filter_csv scenario_fs "in.csv" "out.csv" "article" {[ "SKU1" ]}
         (Some "depot") (Some {[ "SYD" ]}) None false false st0
       = ({| pulled := 1; out_file := Some [] |},
          inl (ValueError col (Some scenario_header))))
  ∧ (("name" ∉ ["value"]) ∧
     read_unique_values scenario_e_fs "e.csv" (Some "name") false true true
                        false st0
     = ({| pulled := 1; out_file := None |},
        inl (ValueError "name" (Some ["value"])))).
Proof.
  assert (Hsrc : source_stream scenario_fs "in.csv" "out.csv"
                 = Some {| records := scenario_records; fails := false |})
    by reflexivity.
  assert (Hsku : "sku" ∉ scenario_header).
  { intros Hin. apply list_elem_of_In in Hin. simpl in Hin.
    destruct Hin as [H|[H|[H|[]]]]; discriminate H. }
  assert (Hdepot : "depot" ∉ scenario_header).
  { intros Hin. apply list_elem_of_In in Hin. simpl in Hin.
    destruct Hin as [H|[H|[H|[]]]]; discriminate H. }
  assert (Hname : "name" ∉ ["value"]).
  { intros Hin. apply list_elem_of_In in Hin. simpl in Hin.
    destruct Hin as [H|[]]; discriminate H. }
  assert (Hset : ({[ "SYD" ]} : gset string) ≠ ∅).
  { intros Hempty.
    assert (Hin : "SYD" ∈ ({[ "SYD" ]} : gset string))
      by (by apply elem_of_singleton).
    rewrite Hempty in Hin. by apply not_elem_of_empty in Hin. }
  split; [exact Hsrc|]. split; [|split].
  - split; [exact Hsku|].
    destruct (proj1 validation_precedes_streaming scenario_fs "in.csv"
                "out.csv" "sku" {[ "SKU1" ]} (Some "plant") None None false
                false st0 {| records := scenario_records; fails := false |}
                scenario_header Hsrc eq_refl (or_introl Hsku))
      as (col & _ & _ & Hrun).
    exists col. exact Hrun.
  - split; [exact Hdepot|].
    apply (proj1 validation_precedes_streaming scenario_fs "in.csv"
             "out.csv" "article" {[ "SKU1" ]} (Some "depot")
             (Some {[ "SYD" ]}) None false false st0
             {| records := scenario_records; fails := false |}
             scenario_header Hsrc eq_refl).
    right. exists "depot", {[ "SYD" ]}.
    split; [reflexivity|]. split; [reflexivity|].
    split; [discriminate|]. split; [exact Hset|exact Hdepot].
  - split; [exact Hname|].
    apply (proj2 validation_precedes_streaming scenario_e_fs "e.csv"
             scenario_e_file "name" true true false st0 ["value"]).
    + reflexivity.
    + reflexivity.
    + discriminate.
    + exact Hname.
Defined.

End ValidationProps.

(** * Further facts about trimming and lower-casing *)

Module StripFacts.
Import Py ExtraSpec.

Lemma is_space_lower_char (c : ascii) : is_space (lower_char c) = is_space c.
Proof. destruct c as [[] [] [] [] [] [] [] []]; reflexivity. Qed.

Lemma lower_char_idem (c : ascii) : lower_char (lower_char c) = lower_char c.
Proof. destruct c as [[] [] [] [] [] [] [] []]; reflexivity. Qed.

Lemma lower_idem (s : string) : lower (lower s) = lower s.
Proof.
  induction s as [|c s IH]; [reflexivity|]. simpl.
  by rewrite lower_char_idem, IH.
Qed.

Lemma lstrip_lower (s : string) : lstrip (lower s) = lower (lstrip s).
Proof.
  induction s as [|c s IH]; [reflexivity|]. simpl.
  rewrite is_space_lower_char. destruct (is_space c); [exact IH|reflexivity].
Qed.

Lemma rstrip_lower (s : string) : rstrip (lower s) = lower (rstrip s).
Proof.
  induction s as [|c s IH]; [reflexivity|]. simpl.
  rewrite IH, is_space_lower_char.
  destruct (rstrip s) as [|c' r]; simpl; [|reflexivity].
  destruct (is_space c); reflexivity.
Qed.

Lemma strip_lower (s : string) : strip (lower s) = lower (strip s).
Proof. unfold strip. by rewrite lstrip_lower, rstrip_lower. Qed.

Lemma lstrip_clean (s : string) : starts_clean (lstrip s).
Proof.
  induction s as [|c s IH]; [exact I|]. simpl.
  destruct (is_space c) eqn:Hc; [exact IH|exact Hc].
Qed.

Lemma lstrip_of_clean (s : string) : starts_clean s → lstrip s = s.
Proof. destruct s as [|c s]; [done|]. simpl. by intros ->. Qed.

Lemma rstrip_clean (s : string) : starts_clean s → starts_clean (rstrip s).
Proof.
  destruct s as [|c s]; [done|]. simpl. intros Hc.
  destruct (rstrip s); simpl; [by rewrite Hc|exact Hc].
Qed.

Lemma rstrip_idem (s : string) : rstrip (rstrip s) = rstrip s.
Proof.
  induction s as [|c s IH]; [reflexivity|]. simpl.
  destruct (rstrip s) as [|c' r] eqn:Hr.
  - destruct (is_space c) eqn:Hc; [reflexivity|]. simpl. by rewrite Hc.
  - change (rstrip (String c (String c' r)))
      with (match rstrip (String c' r) with
            | EmptyString =>
                if is_space c then EmptyString else String c EmptyString
            | r' => String c r'
            end).
    rewrite IH. reflexivity.
Qed.

(** trimming twice is trimming once *)
Lemma strip_idem (s : string) : strip (strip s) = strip s.
Proof.
  unfold strip.
  rewrite (lstrip_of_clean (rstrip (lstrip s)))
    by (apply rstrip_clean, lstrip_clean).
  apply rstrip_idem.
Qed.

Lemma fold_case_strip (ci : bool) (s : string) :
  strip (fold_case ci (strip s)) = fold_case ci (strip s).
Proof.
  destruct ci; simpl; [|apply strip_idem].
  by rewrite strip_lower, strip_idem.
Qed.

Lemma fold_case_idem (ci : bool) (s : string) :
  fold_case ci (fold_case ci s) = fold_case ci s.
Proof. destruct ci; simpl; [apply lower_idem|reflexivity]. Qed.

End StripFacts.

(** * Further properties of the row filter *)

Module FilterExtras.
Import FilterBySku FilterSpec ExtraSpec.

Lemma project_cells (fn : list string) (vs : list (option string))
    (m : gmap string (option string)) (e : option (list string)) :
  NoDup fn → (length fn ≤ length vs)%nat →
  project fn {| fields := foldl (λ d kv, <[kv.1 := kv.2]> d) m (zip fn vs);
                extras := e |}
  = default "" <$> take (length fn) vs.
Proof.
  intros Hnd. revert vs m.
  induction Hnd as [|k ks Hk Hnd IH]; intros vs m Hlen; [reflexivity|].
  destruct vs as [|v vs]; [simpl in Hlen; lia|].
  unfold project in *. cbn [fields] in *. simpl. f_equal.
  - rewrite FilterProps.dict_fields_other by done.
    rewrite lookup_insert_eq. by destruct v.
  - apply IH. simpl in Hlen. lia.
Qed.

(** X1. Under a header without duplicate names, the default projection
    writes a row back as its record cut to the width of the header, or
    filled up to it with empty fields. *)
Theorem default_projection_squares_records
    (fieldnames r : list string) :
  NoDup fieldnames →
  project fieldnames (dict_row fieldnames r) = squared (length fieldnames) r.
Proof.
  intros Hnd. unfold dict_row, squared.
  rewrite project_cells; [|exact Hnd|].
  - rewrite fmap_take, fmap_app, fmap_replicate. simpl.
    rewrite <- list_fmap_compose. f_equal. f_equal.
    clear Hnd. induction r as [|x r IH]; [reflexivity|].
    rewrite fmap_cons, IH. reflexivity.
  - rewrite length_app, length_fmap, length_replicate. lia.
Qed.

Lemma default_projection_squares_records_witness :
  NoDup scenario_header
  ∧ project scenario_header (dict_row scenario_header ["SKU1"])
    = ["SKU1"; ""; ""].
Proof.
  assert (Hnd : NoDup scenario_header).
  { unfold scenario_header. repeat constructor;
      rewrite ?list_elem_of_In; simpl; intuition discriminate. }
  split; [exact Hnd|].
  exact (default_projection_squares_records scenario_header ["SKU1"] Hnd).
Defined.

Lemma dict_rows_elem (fn : list string) (recs : list (list string)) (rw : row) :
  rw ∈ dict_rows fn recs → ∃ r, rw = dict_row fn r ∧ r ∈ recs ∧ r ≠ [].
Proof.
  unfold dict_rows. intros H. apply list_elem_of_fmap in H.
  destruct H as (r & -> & Hr). apply list_elem_of_filter in Hr.
  exists r. tauto.
Qed.

(** X2. A run that returns writes, in every data record, the empty
    field at each position of the output header whose column is not a
    column of the input header. *)
Theorem absent_column_is_written_empty
    (fsys : gmap string file) (input_csv output_csv article_col : string)
    (match_values : gset string) (plant_col : option string)
    (plant_values : option (gset string)) (select_columns : option (list string))
    (case_insensitive invert : bool) (strm : csv_stream) (h rec : list string)
    (i : nat) (c : string) :
  let run :=
    stream_filter_csv fsys input_csv output_csv article_col match_values
      plant_col plant_values select_columns case_insensitive invert st0 in
  source_stream fsys input_csv output_csv = Some strm →
  head (records strm) = Some h →
  rec ∈ written_rows run.1 →
  output_fields select_columns h !! i = Some c →
  c ∉ h →
  rec !! i = Some "".
Proof.
  intros run Hsrc Hhead Hrec Hcol Hc. subst run.
  rewrite FilterProps.stream_filter_csv_run, Hsrc in Hrec.
  destruct (records strm) as [|h' rest]; [discriminate|].
  injection Hhead as ->. cbv zeta in Hrec.
  destruct (negb (Py.in_list article_col h));
    [by apply not_elem_of_nil in Hrec|].
  destruct (missing_plant_column plant_col plant_values h);
    [by apply not_elem_of_nil in Hrec|].
  unfold written_rows in Hrec. simpl in Hrec.
  apply list_elem_of_fmap in Hrec. destruct Hrec as (rw & -> & Hrw).
  apply list_elem_of_filter in Hrw. destruct Hrw as [_ Hrw].
  apply dict_rows_elem in Hrw. destruct Hrw as (r & -> & _).
  unfold project. rewrite list_lookup_fmap, Hcol. simpl.
  unfold dict_row. cbn [fields].
  rewrite FilterProps.dict_fields_other by done.
  by rewrite lookup_empty.
Qed.

Lemma absent_column_is_written_empty_witness :
  source_stream scenario_fs "in.csv" "out.csv"
    = Some {| records := scenario_records; fails := false |}
  ∧ ("price" ∉ scenario_header)
  ∧ ["SKU1"; ""] !! 1%nat = Some "".
Proof.
  assert (Hc : "price" ∉ scenario_header).
  { intros Hin. apply list_elem_of_In in Hin. simpl in Hin.
    destruct Hin as [H|[H|[H|[]]]]; discriminate H. }
  split; [reflexivity|]. split; [exact Hc|].
  refine (absent_column_is_written_empty scenario_fs "in.csv" "out.csv"
            "article" {[ "SKU1" ]} None None (Some ["article"; "price"])
            false false {| records := scenario_records; fails := false |}
            scenario_header ["SKU1"; ""] 1 "price"
            eq_refl eq_refl _ eq_refl Hc).
  vm_compute. left.
Defined.

(** X3. When a run returns, whatever [invert] is, the output file
    holds the output header followed by data records that all have the
    width of that header, and the count returned is the number of these
    data records. *)
Theorem output_is_rectangular
    (fsys : gmap string file) (input_csv output_csv article_col : string)
    (match_values : gset string) (plant_col : option string)
    (plant_values : option (gset string)) (select_columns : option (list string))
    (case_insensitive invert : bool) (s : st) :
  let run :=
    stream_filter_csv fsys input_csv output_csv article_col match_values
      plant_col plant_values select_columns case_insensitive invert s in
  match run.2 with
  | inl _ => True
  | inr n =>
      ∃ hdr rows,
        out_file run.1 = Some (hdr :: rows)
        ∧ n = Z.of_nat (length rows)
        ∧ Forall (λ r, length r = length hdr) rows
        ∧ ∃ strm h, source_stream fsys input_csv output_csv = Some strm
                    ∧ head (records strm) = Some h
                    ∧ hdr = output_fields select_columns h
  end.
Proof.
  intros run. subst run. rewrite FilterProps.stream_filter_csv_run.
  destruct (source_stream fsys input_csv output_csv) as [strm|]; [|done].
  destruct (records strm) as [|h rest] eqn:Hrec; [done|]. cbv zeta.
  destruct (negb (Py.in_list article_col h)); [done|].
  destruct (missing_plant_column plant_col plant_values h); [done|].
  unfold outcome. destruct (fails strm); [done|]. simpl.
  eexists _, _. split; [reflexivity|]. split; [by rewrite length_fmap|].
  split.
  - apply Forall_fmap, Forall_true. intros rw. simpl. unfold project.
    apply length_fmap.
  - exists strm, h. by rewrite Hrec.
Qed.

(** X4. A run that returns has pulled every record of the input from
    the reader exactly once: the number of records pulled is the number
    of records of the file, whatever the rows and the configuration. *)
Theorem every_record_is_pulled_once
    (fsys : gmap string file) (input_csv output_csv article_col : string)
    (match_values : gset string) (plant_col : option string)
    (plant_values : option (gset string)) (select_columns : option (list string))
    (case_insensitive invert : bool) :
  let run :=
    stream_filter_csv fsys input_csv output_csv article_col match_values
      plant_col plant_values select_columns case_insensitive invert st0 in
  match run.2 with
  | inl _ => True
  | inr _ =>
      ∃ strm, source_stream fsys input_csv output_csv = Some strm
              ∧ pulled run.1 = length (records strm)
  end.
Proof.
  intros run. subst run. rewrite FilterProps.stream_filter_csv_run.
  destruct (source_stream fsys input_csv output_csv) as [strm|]; [|done].
  destruct (records strm) as [|h rest] eqn:Hrec; [done|]. cbv zeta.
  destruct (negb (Py.in_list article_col h)); [done|].
  destruct (missing_plant_column plant_col plant_values h); [done|].
  unfold outcome. destruct (fails strm); [done|]. simpl.
  exists strm. by rewrite Hrec.
Qed.

(** X5. A row whose primary value trims to the empty string is never
    a match: it is dropped without [invert] and kept with [invert],
    whatever the match set and the secondary filter. *)
Theorem empty_key_row_follows_invert
    (article_col : string) (match_values : gset string)
    (plant_col : option string) (plant_values : option (gset string))
    (case_insensitive invert : bool) (rw : row) :
  Py.strip (Py.or_empty (row_get rw article_col)) = "" →
  is_match article_col match_values plant_col plant_values case_insensitive rw
    = false
  ∧ keep invert (is_match article_col match_values plant_col plant_values
                          case_insensitive rw) = invert.
Proof.
  intros Hempty.
  assert (Hm : is_match article_col match_values plant_col plant_values
                        case_insensitive rw = false).
  { unfold is_match. rewrite Hempty.
    assert (Hk : Py.truthy (Py.fold_case case_insensitive "") = false)
      by (by destruct case_insensitive).
    rewrite Hk. by destruct (secondary plant_col plant_values) as [[? ?]|]. }
  split; [exact Hm|]. rewrite Hm. by destruct invert.
Qed.

Lemma empty_key_row_follows_invert_witness :
  Py.strip (Py.or_empty (row_get (dict_row scenario_header ["  "; "SYD"; "1"])
                                 "article")) = ""
  ∧ keep true (is_match "article" {[ "SKU1" ]} None None false
                        (dict_row scenario_header ["  "; "SYD"; "1"])) = true.
Proof.
  assert (H : Py.strip (Py.or_empty
                (row_get (dict_row scenario_header ["  "; "SYD"; "1"])
                         "article")) = "") by (vm_compute; reflexivity).
  split; [exact H|].
  exact (proj2 (empty_key_row_follows_invert "article" {[ "SKU1" ]} None None
                  false true (dict_row scenario_header ["  "; "SYD"; "1"]) H)).
Defined.

(** X6. When the input file does not exist, or a key file is named
    and does not exist, [main] never succeeds and never touches the
    output: it ends in the initial state (nothing pulled, the output
    file not opened) with a non-zero exit code. *)
Theorem missing_file_leaves_output_untouched
    (fsys : gmap string file) (a : args) :
  (fsys !! input_csv a = None
   ∨ ∃ p, sku_file a = Some p ∧ p ≠ "" ∧ fsys !! p = None) →
  (main fsys a).1 = st0
  ∧ (main fsys a).2.1 ≠ 0
  ∧ (∀ n path, (main fsys a).2.2 ≠ Wrote n path)
  ∧ (∀ p, sku_file a = Some p → p ≠ "" → fsys !! p = None →
       main fsys a = (st0, (1, Error (FileNotFoundError p)))).
Proof.
  intros Hmiss. rewrite (FilterProps.main_run fsys a).
  assert (Hkey : ∀ p, sku_file a = Some p → p ≠ "" → fsys !! p = None →
            read_sku_list fsys (sku a) (sku_file a) (sku_file_column a)
                          (case_insensitive a)
            = inl (FileNotFoundError p)).
  { intros p Hp Hne Hnone. unfold read_sku_list. rewrite Hp.
    apply PyFacts.truthy_true in Hne. by rewrite Hne, Hnone. }
  destruct (read_sku_list fsys (sku a) (sku_file a) (sku_file_column a)
              (case_insensitive a)) as [e|mv] eqn:Hread.
  { repeat split; try done.
    intros p Hp Hne Hnone. specialize (Hkey p Hp Hne Hnone). congruence. }
  destruct Hmiss as [Hin|(p & Hp & Hne & Hnone)];
    [|specialize (Hkey p Hp Hne Hnone); discriminate].
  destruct (bool_decide (mv = ∅)).
  { repeat split; try done.
    intros p Hp Hne Hnone. specialize (Hkey p Hp Hne Hnone). discriminate. }
  unfold stream_filter_csv. rewrite Hin. unfold raise.
  repeat split; try done.
  intros p Hp Hne Hnone. specialize (Hkey p Hp Hne Hnone). discriminate.
Qed.

Lemma missing_file_leaves_output_untouched_witness :
  scenario_fs !! "nowhere.csv" = None
  ∧ (main scenario_fs
       (mk_args "nowhere.csv" "out.csv" "article" "plant" (Some ["SKU1"]) None
                "article" "*" false false None)).1
    = st0.
Proof.
  split; [reflexivity|].
  exact (proj1 (missing_file_leaves_output_untouched scenario_fs
    (mk_args "nowhere.csv" "out.csv" "article" "plant" (Some ["SKU1"]) None
             "article" "*" false false None) (or_introl eq_refl))).
Defined.

Lemma elem_of_literal_keys ci (vs : list string) (k : string) :
  k ∈ literal_keys ci (Some vs)
  ↔ ∃ v, v ∈ vs ∧ Py.strip v ≠ "" ∧ Py.fold_case ci (Py.strip v) = k.
Proof.
  unfold literal_keys. simpl. rewrite elem_of_list_to_set, list_elem_of_fmap.
  split.
  - intros (s & -> & Hs). apply list_elem_of_filter in Hs.
    destruct Hs as [Hne Hs]. apply list_elem_of_fmap in Hs.
    destruct Hs as (v & -> & Hv). eauto.
  - intros (v & Hv & Hne & <-). exists (Py.strip v). split; [done|].
    apply list_elem_of_filter. split; [done|]. apply list_elem_of_fmap. eauto.
Qed.

(** X7. With values given on the command line only and no secondary
    set, a row is a match exactly when its primary value equals one of
    the values after both are trimmed and, if [case_insensitive],
    lower-cased; blank values never match. *)
Theorem literal_match_up_to_normalization
    (fsys : gmap string file) (sku_values : list string)
    (sku_file_column article_col : string) (plant_col : option string)
    (case_insensitive : bool) (rw : row) :
  ∃ match_values,
    read_sku_list fsys (Some sku_values) None sku_file_column case_insensitive
      = inr match_values
    ∧ (is_match article_col match_values plant_col None case_insensitive rw
         = true
       ↔ ∃ v, v ∈ sku_values ∧ Py.strip v ≠ ""
              ∧ Py.fold_case case_insensitive (Py.strip v)
                = normalized case_insensitive rw article_col).
Proof.
  exists (literal_keys case_insensitive (Some sku_values)). split.
  - unfold read_sku_list. rewrite FilterProps.add_sku_values_union.
    f_equal. set_solver.
  - unfold is_match.
    assert (Hsec : secondary plant_col None = None) by (by destruct plant_col).
    rewrite Hsec. cbv zeta. fold (normalized case_insensitive rw article_col).
    destruct (Py.truthy (normalized case_insensitive rw article_col)) eqn:Ht.
    + rewrite FilterProps.in_set_true. apply elem_of_literal_keys.
    + apply PyFacts.truthy_false in Ht. split; [done|].
      intros (v & _ & Hne & Hv). rewrite Ht in Hv.
      apply FilterProps.fold_case_empty in Hv. done.
Qed.

Lemma normalized_key_shape ci (P : string → Prop) `{∀ s, Decision (P s)}
    (xs : list string) (k : string) :
  (∀ s, P s → s ≠ "") →
  k ∈ (list_to_set (Py.fold_case ci <$> filter P (Py.strip <$> xs))
        : gset string) →
  k ≠ "" ∧ Py.strip k = k ∧ Py.fold_case ci k = k.
Proof.
  intros HP Hk. apply elem_of_list_to_set, list_elem_of_fmap in Hk.
  destruct Hk as (s & -> & Hs). apply list_elem_of_filter in Hs.
  destruct Hs as [Hp Hs]. apply list_elem_of_fmap in Hs.
  destruct Hs as (x & -> & _). split; [|split].
  - intros Hk. apply FilterProps.fold_case_empty in Hk. by apply (HP _ Hp).
  - apply StripFacts.fold_case_strip.
  - apply StripFacts.fold_case_idem.
Qed.

Lemma literal_key_shape ci vs (k : string) :
  k ∈ literal_keys ci vs → k ≠ "" ∧ Py.strip k = k ∧ Py.fold_case ci k = k.
Proof. unfold literal_keys. apply normalized_key_shape. auto. Qed.

Lemma line_key_shape ci ls (k : string) :
  k ∈ line_keys ci ls → k ≠ "" ∧ Py.strip k = k ∧ Py.fold_case ci k = k.
Proof. unfold line_keys. apply normalized_key_shape. by intros s [? _]. Qed.

Lemma column_key_shape ci col rows (k : string) :
  k ∈ column_keys ci col rows →
  k ≠ "" ∧ Py.strip k = k ∧ Py.fold_case ci k = k.
Proof.
  unfold column_keys.
  rewrite (list_fmap_compose (λ rw, Py.or_empty (row_get rw col)) Py.strip).
  apply normalized_key_shape. auto.
Qed.

(** X8. Every key of the set that [read_sku_list] returns is in
    normal form: it is not empty, trimming leaves it unchanged, and so
    does the case folding of the run. *)
Theorem match_set_keys_are_normalized
    (fsys : gmap string file) (sku_values : option (list string))
    (sku_file : option string) (sku_file_column : string)
    (case_insensitive : bool) (match_values : gset string) (k : string) :
  read_sku_list fsys sku_values sku_file sku_file_column case_insensitive
    = inr match_values →
  k ∈ match_values →
  k ≠ "" ∧ Py.strip k = k ∧ Py.fold_case case_insensitive k = k.
Proof.
  unfold read_sku_list. rewrite FilterProps.add_sku_values_union.
  intros Hread Hk.
  assert (Hshape : ∀ f h rest,
    k ∈ (∅ ∪ literal_keys case_insensitive sku_values : gset string)
    ∨ k ∈ line_keys case_insensitive (lines f)
    ∨ k ∈ column_keys case_insensitive sku_file_column (dict_rows h rest) →
    k ≠ "" ∧ Py.strip k = k ∧ Py.fold_case case_insensitive k = k).
  { intros f h rest [H|[H|H]].
    - apply (literal_key_shape case_insensitive sku_values). set_solver.
    - by apply (line_key_shape case_insensitive (lines f)).
    - by apply (column_key_shape case_insensitive sku_file_column
                  (dict_rows h rest)). }
  destruct sku_file as [path|];
    [|injection Hread as <-;
      apply (Hshape (file_of_records []) [] []); by left].
  destruct (negb (Py.truthy path));
    [injection Hread as <-; apply (Hshape (file_of_records []) [] []); by left|].
  destruct (fsys !! path) as [f|]; [|discriminate].
  destruct (records (parse f ",")) as [|h rest].
  - injection Hread as <-. rewrite FilterProps.add_lines_union in Hk.
    apply (Hshape f [] []). set_solver.
  - destruct (has_column h sku_file_column).
    + destruct (fails (parse f ",")); injection Hread as <-.
      * rewrite FilterProps.add_lines_union, FilterProps.add_column_union in Hk.
        apply (Hshape f h rest). set_solver.
      * rewrite FilterProps.add_column_union in Hk.
        apply (Hshape f h rest). set_solver.
    + injection Hread as <-. rewrite FilterProps.add_lines_union in Hk.
      apply (Hshape f h rest). set_solver.
Qed.

Lemma match_set_keys_are_normalized_witness :
  read_sku_list key_fs (Some [" SKU9 "]) (Some "keys.csv") "article" true
    = inr {[ "sku9"; "sku1"; "sku3" ]}
  ∧ Py.strip "sku9" = "sku9".
Proof.
  assert (Hread : read_sku_list key_fs (Some [" SKU9 "]) (Some "keys.csv")
                    "article" true = inr {[ "sku9"; "sku1"; "sku3" ]})
    by (vm_compute; reflexivity).
  split; [exact Hread|].
  apply (match_set_keys_are_normalized key_fs (Some [" SKU9 "])
           (Some "keys.csv") "article" true {[ "sku9"; "sku1"; "sku3" ]}
           "sku9" Hread).
  vm_compute. reflexivity.
Defined.

(** X9. With a secondary set that is given but empty and a secondary
    column name that is not empty, no row is a match; the header of the
    input is not checked for the secondary column, so on an input whose
    header holds the primary column the run without [invert] writes the
    header alone and returns 0. *)
Theorem empty_secondary_set_matches_nothing
    (fsys : gmap string file) (input_csv output_csv article_col : string)
    (match_values : gset string) (plant_col : string)
    (select_columns : option (list string)) (case_insensitive : bool)
    (strm : csv_stream) (h : list string) :
  plant_col ≠ "" →
  source_stream fsys input_csv output_csv = Some strm →
  head (records strm) = Some h →
  article_col ∈ h →
  fails strm = false →
  (∀ rw, is_match article_col match_values (Some plant_col) (Some ∅)
                  case_insensitive rw = false)
  ∧ stream_filter_csv fsys input_csv output_csv article_col match_values
      (Some plant_col) (Some ∅) select_columns case_insensitive false st0
    = ({| pulled := length (records strm);
          out_file := Some [output_fields select_columns h] |}, inr 0).
Proof.
  intros Hpc Hsrc Hhead Hac Hfails.
  assert (Ht : Py.truthy plant_col = true) by (by apply PyFacts.truthy_true).
  assert (Hnone : ∀ rw, is_match article_col match_values (Some plant_col)
                          (Some ∅) case_insensitive rw = false).
  { intros rw. unfold is_match, secondary. rewrite Ht. cbv zeta.
    set (pk := Py.fold_case case_insensitive
                 (Py.strip (Py.or_empty (row_get rw plant_col)))).
    set (key := Py.fold_case case_insensitive
                  (Py.strip (Py.or_empty (row_get rw article_col)))).
    assert (Hp : (if Py.truthy pk then Py.in_set pk ∅ else false) = false).
    { destruct (Py.truthy pk); [|reflexivity].
      unfold Py.in_set. apply bool_decide_eq_false. set_solver. }
    rewrite Hp.
    by destruct (if Py.truthy key then Py.in_set key match_values else false). }
  split; [exact Hnone|].
  rewrite FilterProps.stream_filter_csv_run, Hsrc.
  destruct (records strm) as [|h' rest]; [discriminate|].
  injection Hhead as ->. cbv zeta.
  apply FilterProps.in_list_true in Hac. rewrite Hac. cbn [negb].
  unfold missing_plant_column. rewrite bool_decide_eq_true_2 by done.
  cbn [negb andb].
  assert (Hkept : kept_rows article_col match_values (Some plant_col) (Some ∅)
                    case_insensitive false (dict_rows h rest) = []).
  { unfold kept_rows. apply FilterProps.filter_all_false.
    intros rw _. rewrite Hnone. simpl. discriminate. }
  rewrite Hkept, Hfails. reflexivity.
Qed.

Lemma empty_secondary_set_matches_nothing_witness :
  "depot" ≠ ""
  ∧ stream_filter_csv scenario_fs "in.csv" "out.csv" "article" {[ "SKU1" ]}
      (Some "depot") (Some ∅) None false false st0
    = ({| pulled := 4; out_file := Some [scenario_header] |}, inr 0).
Proof.
  split; [done|].
  refine (proj2 (empty_secondary_set_matches_nothing scenario_fs "in.csv"
            "out.csv" "article" {[ "SKU1" ]} "depot" None false
            {| records := scenario_records; fails := false |} scenario_header
            ltac:(done) eq_refl eq_refl _ eq_refl)).
  unfold scenario_header. left.
Defined.

Lemma split_not_nil (sep : ascii) (s : string) : Py.split sep s ≠ [].
Proof.
  destruct s as [|c s]; simpl; [done|].
  destruct (Ascii.eqb c sep); [done|]. by destruct (Py.split sep s).
Qed.

(** X10. When [main] turns the [--columns] text into a list, the list is
    never empty and never the wildcard alone, and every name in it is
    trimmed; so [stream_filter_csv] always takes it as the output
    header. *)
Theorem select_of_columns_shape (columns : string) (cols : list string) :
  select_of_columns columns = Some cols →
  cols ≠ [] ∧ cols ≠ ["*"]
  ∧ (∀ c, c ∈ cols → Py.strip c = c)
  ∧ (∀ fieldnames, output_fields (Some cols) fieldnames = cols).
Proof.
  unfold select_of_columns. cbv zeta.
  set (raw := if Py.truthy columns
              then Py.strip <$> Py.split "," columns else ["*"]).
  destruct (bool_decide (length raw = 1%nat)
            && bool_decide (raw !! 0%nat = Some "*")) eqn:Hone.
  { rewrite bool_decide_eq_true_2 by done. discriminate. }
  destruct (bool_decide (raw = ["*"])) eqn:Hstar; [discriminate|].
  intros [= <-]. apply bool_decide_eq_false in Hstar.
  assert (Hraw : raw = Py.strip <$> Py.split "," columns).
  { subst raw. destruct (Py.truthy columns); [reflexivity|done]. }
  assert (Hne : raw ≠ []).
  { rewrite Hraw. intros Hnil. apply fmap_nil_inv in Hnil.
    by apply split_not_nil in Hnil. }
  split; [exact Hne|]. split; [exact Hstar|]. split.
  - intros c Hc. rewrite Hraw in Hc. apply list_elem_of_fmap in Hc.
    destruct Hc as (x & -> & _). apply StripFacts.strip_idem.
  - intros fieldnames. unfold output_fields.
    rewrite bool_decide_eq_false_2 by done.
    rewrite bool_decide_eq_false_2 by done. reflexivity.
Qed.

Lemma select_of_columns_shape_witness :
  select_of_columns " qty , article" = Some ["qty"; "article"]
  ∧ output_fields (Some ["qty"; "article"]) scenario_header
    = ["qty"; "article"].
Proof.
  assert (H : select_of_columns " qty , article" = Some ["qty"; "article"])
    by (vm_compute; reflexivity).
  split; [exact H|].
  apply (select_of_columns_shape " qty , article" ["qty"; "article"] H).
Defined.

Lemma kept_records ac mv pc pv ci inv (h : list string)
    (recs : list (list string)) :
  NoDup h → Forall (λ r, length r = length h) recs →
  project h <$> kept_rows ac mv pc pv ci inv (dict_rows h recs)
  = filter (λ r, r ≠ [] ∧
                 keep inv (is_match ac mv pc pv ci (dict_row h r)) = true) recs.
Proof.
  intros Hnd Hall. induction Hall as [|r recs Hr Hall IH]; [reflexivity|].
  rewrite filter_cons. destruct r as [|c r'].
  - rewrite FilterProps.dict_rows_cons_nil, IH.
    by rewrite decide_False by (intros [? _]; done).
  - rewrite FilterProps.dict_rows_cons by done.
    rewrite FilterProps.kept_rows_cons.
    destruct (keep inv (is_match ac mv pc pv ci (dict_row h (c :: r')))) eqn:Hk.
    + rewrite decide_True by done. rewrite fmap_cons, IH.
      by rewrite FilterProps.project_dict_row.
    + rewrite decide_False by (intros [_ ?]; congruence). exact IH.
Qed.

Lemma filter_twice {A : Type} (P : A → Prop) `{∀ x, Decision (P x)}
    (l : list A) :
  filter P (filter P l) = filter P l.
Proof.
  induction l as [|x l IH]; [reflexivity|]. rewrite filter_cons.
  destruct (decide (P x)) as [Hp|Hp]; [|exact IH].
  rewrite filter_cons, decide_True by done. by rewrite IH.
Qed.

(** X11. Filtering is idempotent. On an input whose header has no
    duplicate name and whose records all have the width of the header,
    a run without [invert] and with the default projection writes a
    file on which the same run, once the reader yields its records,
    writes the same file and returns the same count. *)
Theorem filter_is_idempotent
    (fsys fsys2 : gmap string file)
    (input_csv output_csv input_csv2 output_csv2 article_col : string)
    (match_values : gset string) (plant_col : option string)
    (plant_values : option (gset string)) (case_insensitive : bool)
    (strm : csv_stream) (h : list string) (rest : list (list string))
    (s1 : st) (n : Z) (written : list (list string)) :
  source_stream fsys input_csv output_csv = Some strm →
  records strm = h :: rest →
  NoDup h →
  Forall (λ r, length r = length h) rest →
  stream_filter_csv fsys input_csv output_csv article_col match_values
    plant_col plant_values None case_insensitive false st0 = (s1, inr n) →
  out_file s1 = Some written →
  source_stream fsys2 input_csv2 output_csv2
    = Some {| records := written; fails := false |} →
  ∃ s2,
    stream_filter_csv fsys2 input_csv2 output_csv2 article_col match_values
      plant_col plant_values None case_insensitive false st0 = (s2, inr n)
    ∧ out_file s2 = Some written.
Proof.
  intros Hsrc Hrec Hnd Hall Hrun Hout Hsrc2.
  rewrite FilterProps.stream_filter_csv_run, Hsrc, Hrec in Hrun.
  cbv zeta in Hrun. rewrite FilterProps.stream_filter_csv_run, Hsrc2.
  destruct (negb (Py.in_list article_col h)) eqn:Hac; [discriminate|].
  destruct (missing_plant_column plant_col plant_values h) eqn:Hpc;
    [discriminate|].
  unfold outcome in Hrun. destruct (fails strm); [discriminate|].
  injection Hrun as <- <-. simpl in Hout. injection Hout as <-.
  simpl output_fields. cbn [records fails]. cbv zeta.
  rewrite Hac, Hpc, !(kept_records _ _ _ _ _ _ _ _ Hnd Hall).
  set (Q := λ r : list string,
         r ≠ [] ∧ keep false (is_match article_col match_values plant_col
                                plant_values case_insensitive (dict_row h r))
                  = true).
  assert (Hall' : Forall (λ r, length r = length h) (filter Q rest)).
  { apply Forall_forall. intros r Hr. apply list_elem_of_filter in Hr.
    rewrite Forall_forall in Hall. apply Hall. tauto. }
  assert (Hlen : length (kept_rows article_col match_values plant_col
                           plant_values case_insensitive false
                           (dict_rows h (filter Q rest)))
                 = length (kept_rows article_col match_values plant_col
                             plant_values case_insensitive false
                             (dict_rows h rest))).
  { rewrite <- (length_fmap (project h)), (kept_records _ _ _ _ _ _ _ _ Hnd Hall').
    rewrite <- (length_fmap (project h) (kept_rows _ _ _ _ _ _ (dict_rows h rest))).
    rewrite (kept_records _ _ _ _ _ _ _ _ Hnd Hall).
    fold Q. by rewrite filter_twice. }
  eexists. split.
  - unfold outcome. rewrite Hlen. reflexivity.
  - cbn [out_file]. rewrite (kept_records _ _ _ _ _ _ _ _ Hnd Hall').
    fold Q. by rewrite filter_twice.
Qed.

Lemma scenario_header_nodup : NoDup scenario_header.
Proof.
  unfold scenario_header. repeat constructor;
    rewrite ?list_elem_of_In; simpl; intuition discriminate.
Qed.

Lemma filter_is_idempotent_witness :
  ∃ s2,
    stream_filter_csv
      {[ "out.csv" := file_of_records
                        [scenario_header; ["SKU1"; "SYD"; "5"];
                         ["SKU1"; "MEL"; "2"]] ]}
      "out.csv" "again.csv" "article" {[ "SKU1" ]} (Some "plant") None None
      false false st0 = (s2, inr 2)
    ∧ out_file s2 = Some [scenario_header; ["SKU1"; "SYD"; "5"];
                          ["SKU1"; "MEL"; "2"]].
Proof.
  refine (filter_is_idempotent scenario_fs
            {[ "out.csv" := file_of_records
                              [scenario_header; ["SKU1"; "SYD"; "5"];
                               ["SKU1"; "MEL"; "2"]] ]}
            "in.csv" "out.csv" "out.csv" "again.csv" "article" {[ "SKU1" ]}
            (Some "plant") None false
            {| records := scenario_records; fails := false |}
            scenario_header (tail scenario_records)
            {| pulled := 4;
               out_file := Some [scenario_header; ["SKU1"; "SYD"; "5"];
                                 ["SKU1"; "MEL"; "2"]] |}
            2 _ eq_refl eq_refl scenario_header_nodup _ _ eq_refl eq_refl).
  - repeat constructor.
  - vm_compute. reflexivity.
Defined.

End FilterExtras.

(** * Further properties of the unique-value extractor *)

Module UniqueExtras.
Import UniqueValues UniqueSpec ExtraSpec.

Lemma elem_of_dedup_first (ks : list string) (k : string) :
  k ∈ dedup_first ks ↔ k ∈ ks.
Proof.
  induction ks as [|k0 ks IH]; simpl; [done|].
  rewrite !elem_of_cons, list_elem_of_filter, IH.
  destruct (decide (k = k0)); naive_solver.
Qed.

Lemma dedup_first_snoc (ks : list string) (k : string) :
  dedup_first (ks ++ [k]) =
    if decide (k ∈ ks) then dedup_first ks else (dedup_first ks ++ [k])%list.
Proof.
  induction ks as [|k0 ks IH].
  - destruct (decide (k ∈ [])) as [H|H]; [by apply not_elem_of_nil in H|].
    reflexivity.
  - change (dedup_first ((k0 :: ks) ++ [k]))
      with (k0 :: filter (λ k', k' ≠ k0) (dedup_first (ks ++ [k]))).
    rewrite IH. cbn [dedup_first].
    destruct (decide (k ∈ ks)) as [Hin|Hin];
      destruct (decide (k ∈ k0 :: ks)) as [Hin'|Hin']; try reflexivity.
    + exfalso. apply Hin'. by right.
    + apply elem_of_cons in Hin'. destruct Hin' as [->|Hin']; [|done].
      rewrite filter_app, filter_cons, filter_nil.
      destruct (decide (k0 ≠ k0)) as [H|H]; [done|]. by rewrite app_nil_r.
    + rewrite filter_app, filter_cons, filter_nil.
      destruct (decide (k ≠ k0)) as [H|H]; [reflexivity|].
      exfalso. apply Hin'. apply dec_stable in H. subst. left.
Qed.

Lemma dedup_first_length (ks : list string) :
  (length (dedup_first ks) ≤ length ks)%nat.
Proof.
  induction ks as [|k ks IH]; simpl; [lia|].
  pose proof (length_filter (λ k', k' ≠ k) (dedup_first ks)). lia.
Qed.

Lemma keys_of_snoc ci (vals : list string) (v : string) :
  keys_of ci (vals ++ [v]) =
    (keys_of ci vals ++ if decide (v = "") then [] else [Py.fold_case ci v])%list.
Proof.
  unfold keys_of. rewrite filter_app, fmap_app. f_equal.
  rewrite filter_cons, filter_nil.
  destruct (decide (v = "")) as [Hv|Hv].
  - by rewrite decide_False by (intros H; by apply H).
  - by rewrite decide_True by done.
Qed.

Lemma hits_elem ci (k v : string) (vals : list string) :
  v ∈ hits ci k vals ↔ v ∈ vals ∧ v ≠ "" ∧ Py.fold_case ci v = k.
Proof. unfold hits. rewrite list_elem_of_filter. tauto. Qed.

Lemma hits_nil_iff ci (k : string) (vals : list string) :
  hits ci k vals = [] ↔ k ∉ keys_of ci vals.
Proof.
  unfold keys_of. rewrite list_elem_of_fmap. split.
  - intros Hnil (v & -> & Hv). apply list_elem_of_filter in Hv.
    assert (Hin : v ∈ hits ci (Py.fold_case ci v) vals)
      by (apply hits_elem; tauto).
    rewrite Hnil in Hin. by apply not_elem_of_nil in Hin.
  - intros Hk. destruct (hits ci k vals) as [|v hs] eqn:Hh; [reflexivity|].
    exfalso. apply Hk.
    assert (Hin : v ∈ hits ci k vals) by (rewrite Hh; left).
    apply hits_elem in Hin. destruct Hin as (Hv & Hne & Hkey).
    exists v. split; [by symmetry|]. by apply list_elem_of_filter.
Qed.

(** the order list is the list of keys by first occurrence *)
Lemma order_is_dedup_first ci (vals : list string) :
  order (foldl (step ci) acc0 vals) = dedup_first (keys_of ci vals).
Proof.
  induction vals as [|v vals IH] using rev_ind; [reflexivity|].
  rewrite foldl_app, keys_of_snoc. simpl.
  pose proof (UniqueProps.describes_foldl ci vals) as (_ & _ & Hcnt & _).
  unfold step at 1. destruct (decide (v = "")) as [Hv|Hv].
  { by rewrite app_nil_r. }
  rewrite dedup_first_snoc. specialize (Hcnt (Py.fold_case ci v)).
  destruct (decide (Py.fold_case ci v ∈ keys_of ci vals)) as [Hin|Hin].
  - destruct (hits ci (Py.fold_case ci v) vals) as [|h0 hs] eqn:Hh.
    + apply hits_nil_iff in Hh. done.
    + rewrite Hcnt. simpl. exact IH.
  - apply hits_nil_iff in Hin. rewrite Hin in Hcnt. rewrite Hcnt. simpl.
    by rewrite IH.
Qed.

(** X12. Without sorting and without the exactly-once selection, the
    values are emitted in first-seen order: their normalized keys are
    the normalized keys of the non-empty observed values, each kept at
    its first occurrence only. *)
Theorem output_is_in_first_seen_order
    (fsys : gmap string file) (input_csv : string) (column : option string)
    (no_header case_insensitive : bool) (s : st) :
  match (read_unique_values fsys input_csv column no_header case_insensitive
                            false false s).2 with
  | inl _ => True
  | inr values =>
      Py.fold_case case_insensitive <$> values
      = dedup_first (keys_of case_insensitive
                             (observed fsys input_csv column no_header))
  end.
Proof.
  rewrite UniqueProps.read_unique_values_run.
  destruct (accumulate fsys input_csv column no_header case_insensitive s)
    as [s' [e|a]] eqn:Hrun; simpl; [done|].
  assert (Hobs : a = foldl (step case_insensitive) acc0
                       (observed fsys input_csv column no_header)).
  { apply (UniqueProps.accumulate_observed fsys input_csv column no_header
             case_insensitive s). by rewrite Hrun. }
  rewrite (UniqueProps.shown_keys case_insensitive
             (observed fsys input_csv column no_header)).
  - rewrite Hobs. apply order_is_dedup_first.
  - rewrite Hobs. apply UniqueProps.describes_foldl.
  - auto.
Qed.

Lemma observed_stripped fsys inp column no_header (v : string) :
  v ∈ observed fsys inp column no_header → ∃ x, v = Py.strip x.
Proof.
  unfold observed. destruct (fsys !! inp) as [f|];
    [|intros H; by apply not_elem_of_nil in H].
  cbv zeta. destruct no_header.
  - unfold plain_values. intros H. apply list_elem_of_fmap in H.
    destruct H as (r & -> & _). eauto.
  - destruct (records (parse f (sniff_delimiter fsys inp ","))) as [|h rest];
      [intros H; by apply not_elem_of_nil in H|].
    destruct (Py.in_list (resolve_column column h) h);
      [|intros H; by apply not_elem_of_nil in H].
    unfold header_values. intros H. apply list_elem_of_fmap in H.
    destruct H as (rw & -> & _). eauto.
Qed.

(** what a run returns, by the accumulators of its pass *)
Lemma run_values fsys inp column no_header ci sortv once_only s
    (values : list string) :
  (read_unique_values fsys inp column no_header ci sortv once_only s).2
    = inr values →
  ∃ a, describes ci (observed fsys inp column no_header) a
       ∧ Permutation values (shown a (selected once_only a))
       ∧ values = (if sortv
                   then sorted (sort_key ci) (shown a (selected once_only a))
                   else shown a (selected once_only a)).
Proof.
  rewrite UniqueProps.read_unique_values_run.
  destruct (accumulate fsys inp column no_header ci s) as [s' [e|a]] eqn:Hrun;
    simpl; [discriminate|].
  intros [= <-]. exists a. split.
  - apply (UniqueProps.accumulate_describes fsys inp column no_header ci s).
    by rewrite Hrun.
  - split; [|reflexivity]. destruct sortv; [apply UniqueProps.sorted_perm|done].
Qed.

Lemma selected_in_order once_only (a : acc) (k : string) :
  k ∈ selected once_only a → k ∈ order a.
Proof.
  intros Hk. eapply elem_of_sublist; [exact Hk|].
  apply UniqueProps.selected_sublist.
Qed.

Lemma emitted_value_shape fsys inp column no_header ci sortv once_only s
    (values : list string) (v : string) :
  (read_unique_values fsys inp column no_header ci sortv once_only s).2
    = inr values →
  v ∈ values →
  v ∈ observed fsys inp column no_header ∧ v ≠ "" ∧ Py.strip v = v.
Proof.
  intros Hrun Hv. apply run_values in Hrun.
  destruct Hrun as (a & Hd & Hperm & _). rewrite Hperm in Hv.
  destruct (UniqueProps.shown_first ci (observed fsys inp column no_header) a
              (selected once_only a) v Hd (selected_in_order once_only a) Hv)
    as [_ Hhead].
  assert (Hin : v ∈ hits ci (Py.fold_case ci v)
                       (observed fsys inp column no_header)).
  { destruct (hits ci (Py.fold_case ci v) (observed fsys inp column no_header));
      [discriminate|]. injection Hhead as ->. left. }
  apply hits_elem in Hin. destruct Hin as (Hobs & Hne & _).
  split; [exact Hobs|]. split; [exact Hne|].
  destruct (observed_stripped _ _ _ _ _ Hobs) as (x & ->).
  apply StripFacts.strip_idem.
Qed.

(** X13. Under every configuration, each emitted value is one of the
    observed values, is not empty and is trimmed, and the number of
    emitted values is at most the number of non-empty observed values. *)
Theorem emitted_values_are_observed
    (fsys : gmap string file) (input_csv : string) (column : option string)
    (no_header case_insensitive sort_values exactly_once : bool) (s : st) :
  match (read_unique_values fsys input_csv column no_header case_insensitive
                            sort_values exactly_once s).2 with
  | inl _ => True
  | inr values =>
      (length values
         ≤ length (filter (λ v, v ≠ "")
                          (observed fsys input_csv column no_header)))%nat
      ∧ ∀ v, v ∈ values →
          v ∈ observed fsys input_csv column no_header
          ∧ v ≠ "" ∧ Py.strip v = v
  end.
Proof.
  destruct (read_unique_values fsys input_csv column no_header case_insensitive
              sort_values exactly_once s).2 as [e|values] eqn:Hrun; [done|].
  pose proof Hrun as Hrun0.
  apply run_values in Hrun. destruct Hrun as (a & Hd & Hperm & _).
  set (vals := observed fsys input_csv column no_header) in *.
  split.
  - rewrite Hperm. unfold shown. rewrite length_fmap.
    etrans; [apply sublist_length, UniqueProps.selected_sublist|].
    pose proof (UniqueProps.describes_foldl case_insensitive vals) as Hd'.
    assert (Hlen : length (order a) = length (dedup_first (keys_of case_insensitive vals))).
    { assert (Hsame : ∀ k, k ∈ order a ↔ k ∈ dedup_first (keys_of case_insensitive vals)).
      { intros k. rewrite elem_of_dedup_first.
        destruct Hd as (_ & Hord & _). rewrite Hord.
        pose proof (hits_nil_iff case_insensitive k vals) as Hnil.
        destruct (decide (k ∈ keys_of case_insensitive vals)); tauto. }
      apply Nat.le_antisymm; apply submseteq_length, NoDup_submseteq;
        try (intros k; apply Hsame).
      - apply Hd.
      - rewrite <- order_is_dedup_first. apply Hd'. }
    rewrite Hlen. etrans; [apply dedup_first_length|].
    unfold keys_of. by rewrite length_fmap.
  - intros v Hv. apply (emitted_value_shape _ _ _ _ _ _ _ _ _ _ Hrun0 Hv).
Qed.

Lemma accumulate_fails_alike fsys inp column no_header ci1 ci2 s (e : exn) :
  (accumulate fsys inp column no_header ci1 s).2 = inl e →
  (accumulate fsys inp column no_header ci2 s).2 = inl e.
Proof.
  rewrite !UniqueProps.accumulate_run.
  destruct (fsys !! inp) as [f|]; [|done]. cbv zeta.
  destruct no_header.
  - simpl. by destruct (fails _).
  - destruct (records _) as [|h rest].
    + simpl. by destruct (fails _).
    + destruct (Py.in_list _ h); simpl; [|done]. by destruct (fails _).
Qed.

Lemma hits_case_sublist (v : string) (vals : list string) :
  sublist (hits false v vals) (hits true (Py.lower v) vals).
Proof.
  unfold hits. induction vals as [|x vals IH]; [done|].
  rewrite !filter_cons. simpl.
  destruct (decide (x ≠ "" ∧ x = v)) as [[Hne ->]|Hx].
  - rewrite decide_True by done. by apply sublist_skip.
  - destruct (decide (x ≠ "" ∧ Py.lower x = Py.lower v));
      [by apply sublist_cons|exact IH].
Qed.

(** X14. Case folding never adds values: on the same input and with
    the same options, the case-insensitive run emits at most as many
    values as the case-sensitive run, and the two runs fail alike. *)
Theorem case_folding_never_adds_values
    (fsys : gmap string file) (input_csv : string) (column : option string)
    (no_header sort_values exactly_once : bool) (s : st) :
  match (read_unique_values fsys input_csv column no_header false
                            sort_values exactly_once s).2,
        (read_unique_values fsys input_csv column no_header true
                            sort_values exactly_once s).2 with
  | inr exact_values, inr folded_values =>
      (length folded_values ≤ length exact_values)%nat
  | inl e1, inl e2 => e1 = e2
  | _, _ => False
  end.
Proof.
  destruct (read_unique_values fsys input_csv column no_header false
              sort_values exactly_once s).2 as [e1|vs] eqn:Hcs;
    destruct (read_unique_values fsys input_csv column no_header true
                sort_values exactly_once s).2 as [e2|vi] eqn:Hci.
  - rewrite UniqueProps.read_unique_values_run in Hcs, Hci.
    destruct (accumulate fsys input_csv column no_header false s).2
      as [e|a] eqn:Ha; [|discriminate].
    rewrite (accumulate_fails_alike _ _ _ _ false true _ _ Ha) in Hci.
    simpl in *. congruence.
  - rewrite UniqueProps.read_unique_values_run in Hcs, Hci.
    destruct (accumulate fsys input_csv column no_header false s).2
      as [e|a] eqn:Ha; [|discriminate].
    rewrite (accumulate_fails_alike _ _ _ _ false true _ _ Ha) in Hci.
    discriminate.
  - rewrite UniqueProps.read_unique_values_run in Hcs, Hci.
    destruct (accumulate fsys input_csv column no_header true s).2
      as [e|a] eqn:Ha; [|discriminate].
    rewrite (accumulate_fails_alike _ _ _ _ true false _ _ Ha) in Hcs.
    discriminate.
  - apply run_values in Hcs. destruct Hcs as (a1 & Hd1 & Hp1 & _).
    apply run_values in Hci. destruct Hci as (a2 & Hd2 & Hp2 & _).
    set (vals := observed fsys input_csv column no_header) in *.
    rewrite Hp1, Hp2.
    assert (Hnd : NoDup (shown a2 (selected exactly_once a2))).
    { apply (NoDup_fmap_1 (Py.fold_case true)).
      rewrite (UniqueProps.shown_keys true vals a2 _ Hd2
                 (selected_in_order exactly_once a2)).
      eapply sublist_NoDup; [|apply UniqueProps.selected_sublist]. apply Hd2. }
    assert (Hsub : ∀ v, v ∈ shown a2 (selected exactly_once a2) →
                        v ∈ selected exactly_once a1).
    { intros v Hv.
      destruct (UniqueProps.shown_first true vals a2 _ v Hd2
                  (selected_in_order exactly_once a2) Hv) as [Hk Hhead].
      simpl in Hk, Hhead.
      assert (Hin : v ∈ hits true (Py.lower v) vals).
      { destruct (hits true (Py.lower v) vals); [discriminate|].
        injection Hhead as ->. left. }
      apply hits_elem in Hin. destruct Hin as (Hobs & Hne & _).
      assert (Hcs : v ∈ hits false v vals) by (by apply hits_elem).
      assert (Hord : v ∈ order a1).
      { destruct Hd1 as (_ & Hord & _). apply Hord.
        intros Hnil. rewrite Hnil in Hcs. by apply not_elem_of_nil in Hcs. }
      destruct exactly_once; simpl in *; [|exact Hord].
      apply list_elem_of_filter. split; [|exact Hord].
      apply list_elem_of_filter in Hk. destruct Hk as [Honce _].
      apply (UniqueProps.once_iff true vals a2 _ Hd2) in Honce.
      apply (UniqueProps.once_iff false vals a1 _ Hd1).
      pose proof (sublist_length _ _ (hits_case_sublist v vals)) as Hle.
      destruct (hits false v vals); [by apply not_elem_of_nil in Hcs|].
      simpl in *. lia. }
    etrans; [apply submseteq_length, (NoDup_submseteq _ _ Hnd Hsub)|].
    unfold shown. by rewrite length_fmap.
Qed.

Lemma filter_all_true {A : Type} (P : A → Prop) `{∀ x, Decision (P x)}
    (l : list A) :
  (∀ x, x ∈ l → P x) → filter P l = l.
Proof.
  induction l as [|x l IH]; intros Hall; [reflexivity|].
  rewrite filter_cons, decide_True by (apply Hall; left).
  rewrite IH; [reflexivity|]. intros y Hy. apply Hall. by right.
Qed.

Lemma dedup_first_nodup (ks : list string) : NoDup ks → dedup_first ks = ks.
Proof.
  induction 1 as [|k ks Hk Hnd IH]; [reflexivity|]. simpl. rewrite IH.
  rewrite filter_all_true; [reflexivity|]. intros x Hx ->. done.
Qed.

Lemma sorted_of_sorted (key : string → string) (l : list string) :
  StronglySorted (key_le key) l → sorted key l = l.
Proof.
  induction 1 as [|x l Hl IH Hx]; [reflexivity|]. simpl. rewrite IH.
  destruct l as [|y l']; [reflexivity|]. simpl.
  apply Forall_cons in Hx. destruct Hx as [Hxy _].
  unfold key_le in Hxy. by rewrite Hxy.
Qed.

Lemma single_column_values (lbl : string) (values : list string) :
  (∀ v, v ∈ values → v ≠ "" ∧ Py.strip v = v) →
  header_values [lbl] lbl ((λ v, [v]) <$> values) = values.
Proof.
  unfold header_values. induction values as [|v values IH]; intros Hall;
    [reflexivity|].
  rewrite fmap_cons, FilterProps.dict_rows_cons by done. rewrite fmap_cons.
  rewrite IH by (intros x Hx; apply Hall; by right). f_equal.
  destruct (Hall v) as [Hne Hstrip]; [left|].
  assert (Hget : row_get (dict_row [lbl] [v]) lbl = Some v).
  { unfold row_get, dict_row. simpl. by rewrite lookup_insert_eq. }
  rewrite Hget, PyFacts.or_empty_Some. exact Hstrip.
Qed.

Lemma hits_single ci (values : list string) (x : string) :
  NoDup (Py.fold_case ci <$> values) → x ∈ values → x ≠ "" →
  hits ci (Py.fold_case ci x) values = [x].
Proof.
  intros Hnd Hx Hne. unfold hits.
  induction values as [|y values IH]; [by apply not_elem_of_nil in Hx|].
  rewrite fmap_cons in Hnd. apply NoDup_cons in Hnd. destruct Hnd as [Hy Hnd].
  rewrite filter_cons. apply elem_of_cons in Hx. destruct Hx as [->|Hx].
  - rewrite decide_True by done. f_equal.
    apply FilterProps.filter_all_false. intros z Hz [_ Hkey].
    apply Hy. rewrite <- Hkey. by apply list_elem_of_fmap_2.
  - rewrite decide_False; [by apply IH|]. intros [_ Hkey].
    apply Hy. rewrite Hkey. by apply list_elem_of_fmap_2.
Qed.

(** X15. Extraction is idempotent through the csv output. When a run
    returns values and [write_output] lays them out as csv records, a
    second run with a header, no column name, the same case folding and
    the same sort option, on a file from which the reader yields these
    records, returns the same values, with or without the exactly-once
    selection. *)
Theorem extractor_reads_back_its_csv_output
    (fsys fsys2 : gmap string file) (input_csv output_path : string)
    (column : option string)
    (no_header case_insensitive sort_values exactly_once again_once : bool)
    (s s' : st) (values : list string) (fmt : string)
    (header : option string) (recs : list (list string)) (f2 : file) :
  (read_unique_values fsys input_csv column no_header case_insensitive
                      sort_values exactly_once s).2 = inr values →
  UniqueTool.write_output values fmt header = UniqueTool.Records recs →
  fsys2 !! output_path = Some f2 →
  parse f2 (sniff_delimiter fsys2 output_path ",")
    = {| records := recs; fails := false |} →
  (read_unique_values fsys2 output_path None false case_insensitive
                      sort_values again_once s').2 = inr values.
Proof.
  intros Hrun Hwrite Hf2 Hparse.
  assert (Hclean : ∀ v, v ∈ values → v ≠ "" ∧ Py.strip v = v).
  { intros v Hv.
    destruct (emitted_value_shape _ _ _ _ _ _ _ _ _ _ Hrun Hv) as (_ & ? & ?).
    done. }
  apply run_values in Hrun. destruct Hrun as (a & Hd & Hperm & Hvalues).
  assert (Hkeys : NoDup (Py.fold_case case_insensitive <$> values)).
  { rewrite Hperm.
    rewrite (UniqueProps.shown_keys case_insensitive _ a _ Hd
               (selected_in_order exactly_once a)).
    eapply sublist_NoDup; [|apply UniqueProps.selected_sublist]. apply Hd. }
  assert (Hsorted : sort_values = true →
                    sorted (sort_key case_insensitive) values = values).
  { intros ->. apply sorted_of_sorted. rewrite Hvalues.
    apply UniqueProps.sorted_sorted. }
  clear Hperm Hvalues Hd a.
  unfold UniqueTool.write_output in Hwrite.
  destruct (bool_decide (fmt = "txt")); [discriminate|].
  injection Hwrite as <-.
  rewrite UniqueProps.read_unique_values_run, UniqueProps.accumulate_run.
  rewrite Hf2. cbv zeta. rewrite Hparse. cbn [records fails].
  set (lbl := UniqueTool.or_value header).
  assert (Hcol : resolve_column None [lbl] = lbl) by reflexivity.
  rewrite Hcol.
  assert (Hin : Py.in_list lbl [lbl] = true)
    by (apply FilterProps.in_list_true; left).
  rewrite Hin. cbn [snd]. rewrite single_column_values by exact Hclean.
  set (a2 := foldl (step case_insensitive) acc0 values).
  pose proof (UniqueProps.describes_foldl case_insensitive values) as Hd2.
  fold a2 in Hd2.
  assert (Hall : filter (λ v, v ≠ "") values = values).
  { apply filter_all_true. intros v Hv. by apply Hclean. }
  assert (Horder : order a2 = Py.fold_case case_insensitive <$> values).
  { unfold a2. rewrite order_is_dedup_first. unfold keys_of. rewrite Hall.
    by apply dedup_first_nodup. }
  assert (Hsel : selected again_once a2 = order a2).
  { destruct again_once; [|reflexivity]. simpl. apply filter_all_true.
    intros k Hk. apply (UniqueProps.once_iff case_insensitive values a2 _ Hd2).
    rewrite Horder in Hk. apply list_elem_of_fmap in Hk.
    destruct Hk as (v & -> & Hv).
    rewrite hits_single; [reflexivity|exact Hkeys|exact Hv|by apply Hclean]. }
  assert (Hshown : shown a2 (selected again_once a2) = values).
  { rewrite Hsel, Horder. unfold shown. rewrite <- list_fmap_compose.
    rewrite <- (list_fmap_id values) at 2. apply list_fmap_ext.
    intros i v Hv. simpl.
    assert (Hv' : v ∈ values) by (apply list_elem_of_lookup; eauto).
    destruct Hd2 as (_ & _ & _ & Hdis). rewrite Hdis.
    rewrite hits_single; [reflexivity|exact Hkeys|exact Hv'|by apply Hclean]. }
  rewrite Hshown. f_equal.
  destruct sort_values; [by apply Hsorted|reflexivity].
Qed.

Lemma extractor_reads_back_its_csv_output_witness :
  (read_unique_values scenario_e_fs "e.csv" None false true true false st0).2
    = inr ["a"; "B"]
  ∧ (read_unique_values
       {[ "u.csv" := file_of_records [["value"]; ["a"]; ["B"]] ]}
       "u.csv" None false true true true st0).2 = inr ["a"; "B"].
Proof.
  assert (H1 : (read_unique_values scenario_e_fs "e.csv" None false true true
                  false st0).2 = inr ["a"; "B"]) by (vm_compute; reflexivity).
  split; [exact H1|].
  exact (extractor_reads_back_its_csv_output scenario_e_fs
           {[ "u.csv" := file_of_records [["value"]; ["a"]; ["B"]] ]}
           "e.csv" "u.csv" None false true true false true st0 st0
           ["a"; "B"] "csv" None [["value"]; ["a"]; ["B"]]
           (file_of_records [["value"]; ["a"]; ["B"]])
           H1 eq_refl eq_refl eq_refl).
Defined.

Lemma header_label_not_empty (a : UniqueTool.args) :
  UniqueTool.header_label a ≠ ""
  ∧ UniqueTool.or_value (Some (UniqueTool.header_label a))
    = UniqueTool.header_label a.
Proof.
  assert (Hv : ∀ o, UniqueTool.or_value o ≠ "").
  { intros [c|]; simpl; [|done]. destruct (Py.truthy c) eqn:Hc; [|done].
    by apply PyFacts.truthy_true. }
  assert (Hne : UniqueTool.header_label a ≠ "").
  { unfold UniqueTool.header_label.
    destruct (UniqueTool.output_header a) as [h|]; [|apply Hv].
    destruct (Py.truthy h) eqn:Hh; [by apply PyFacts.truthy_true|apply Hv]. }
  split; [exact Hne|]. simpl.
  apply PyFacts.truthy_true in Hne. by rewrite Hne.
Qed.

(** X16. The extractor's [main] ends with exit code 0 or 1. With 1 no
    output file is written. With 0 the file holds the values that
    [read_unique_values] returned: as text, one chunk per value, the
    value followed by a line feed; as csv, a one-field header that is
    never empty followed by one one-field record per value; and the
    count in the message is the number of values written. *)
Theorem unique_main_outcome (fsys : gmap string file) (a : UniqueTool.args) :
  let r := UniqueTool.main fsys a in
  (UniqueTool.exit_code r = 0 ∨ UniqueTool.exit_code r = 1)
  ∧ (UniqueTool.exit_code r = 1 ↔ UniqueTool.written r = None)
  ∧ ∀ c, UniqueTool.written r = Some c →
      ∃ values,
        (read_unique_values fsys (UniqueTool.input_csv a) (UniqueTool.column a)
           (UniqueTool.no_header a) (UniqueTool.case_insensitive a)
           (UniqueTool.sort a) (UniqueTool.exactly_once a) st0).2 = inr values
        ∧ UniqueTool.message r
          = UniqueTool.Wrote (length values) (UniqueTool.output a)
        ∧ match c with
          | UniqueTool.Text chunks =>
              UniqueTool.format a = "txt"
              ∧ chunks = (λ v, v ++ UniqueTool.newline) <$> values
          | UniqueTool.Records recs =>
              UniqueTool.format a ≠ "txt"
              ∧ ∃ label, label ≠ ""
                         ∧ recs = [label] :: ((λ v, [v]) <$> values)
          end.
Proof.
  intros r. subst r. unfold UniqueTool.main.
  destruct (read_unique_values fsys (UniqueTool.input_csv a)
              (UniqueTool.column a) (UniqueTool.no_header a)
              (UniqueTool.case_insensitive a) (UniqueTool.sort a)
              (UniqueTool.exactly_once a) st0) as [s [e|values]]; simpl.
  { split; [by right|]. split; [done|]. intros c Hc. discriminate. }
  split; [by left|]. split; [split; discriminate|].
  intros c [= <-]. exists values. split; [reflexivity|]. split; [reflexivity|].
  unfold UniqueTool.write_output.
  destruct (bool_decide (UniqueTool.format a = "txt")) eqn:Hfmt.
  - apply bool_decide_eq_true in Hfmt. done.
  - apply bool_decide_eq_false in Hfmt. split; [exact Hfmt|].
    destruct (header_label_not_empty a) as [Hne Hlabel].
    exists (UniqueTool.header_label a). split; [exact Hne|].
    by rewrite Hlabel.
Qed.

Lemma unique_main_outcome_witness :
  UniqueTool.written
    (UniqueTool.main scenario_e_fs
       (UniqueTool.mk_args "e.csv" "out.csv" None false true true false
                           "csv" None))
  = Some (UniqueTool.Records [["value"]; ["a"]; ["B"]])
  ∧ ∃ values : list string,
      UniqueTool.message
        (UniqueTool.main scenario_e_fs
           (UniqueTool.mk_args "e.csv" "out.csv" None false true true false
                               "csv" None))
      = UniqueTool.Wrote (length values) "out.csv".
Proof.
  assert (H : UniqueTool.written
                (UniqueTool.main scenario_e_fs
                   (UniqueTool.mk_args "e.csv" "out.csv" None false true true
                                       false "csv" None))
              = Some (UniqueTool.Records [["value"]; ["a"]; ["B"]]))
    by (vm_compute; reflexivity).
  split; [exact H|].
  destruct (proj2 (proj2 (unique_main_outcome scenario_e_fs
              (UniqueTool.mk_args "e.csv" "out.csv" None false true true false
                                  "csv" None))) _ H)
    as (values & _ & Hmsg & _).
  exists values. exact Hmsg.
Defined.

Lemma first_column_values (h0 : string) (hs : list string)
    (rest : list (list string)) :
  h0 ∉ hs →
  header_values (h0 :: hs) h0 rest = plain_values rest.
Proof.
  intros Hh0. unfold header_values, plain_values, dict_rows.
  rewrite <- list_fmap_compose. apply list_fmap_ext.
  intros i r Hr. simpl.
  assert (Hne : r ≠ []).
  { assert (Hin : r ∈ filter (λ r, r ≠ []) rest)
      by (apply list_elem_of_lookup; eauto).
    apply list_elem_of_filter in Hin. tauto. }
  destruct r as [|c cs]; [done|]. do 2 f_equal.
  unfold row_get, dict_row. cbn [fields]. simpl.
  rewrite FilterProps.dict_fields_other by done.
  by rewrite lookup_insert_eq.
Qed.

(** X17. With [no_header] the header line is read as data. On a file
    whose first header name does not occur again in the header, the
    pass without header ends with the accumulators that the pass with
    header (on the first column) would reach if it had first counted
    the trimmed first header cell. *)
Theorem no_header_reads_the_header_as_data
    (fsys : gmap string file) (input_csv : string) (f : file)
    (h0 : string) (hs : list string) (rest : list (list string))
    (column : option string) (case_insensitive : bool) (s : st) :
  fsys !! input_csv = Some f →
  parse f (sniff_delimiter fsys input_csv ",")
    = {| records := (h0 :: hs) :: rest; fails := false |} →
  h0 ∉ hs →
  ∃ vals,
    (accumulate fsys input_csv None false case_insensitive s).2
      = inr (foldl (step case_insensitive) acc0 vals)
    ∧ (accumulate fsys input_csv column true case_insensitive s).2
      = inr (foldl (step case_insensitive)
                   (step case_insensitive acc0 (Py.strip h0)) vals)
    ∧ observed fsys input_csv column true
      = Py.strip h0 :: observed fsys input_csv None false.
Proof.
  intros Hf Hparse Hh0. exists (plain_values rest).
  rewrite !UniqueProps.accumulate_run. unfold observed.
  rewrite Hf. cbv zeta. rewrite Hparse. cbn [records fails].
  assert (Hcol : resolve_column None (h0 :: hs) = h0) by reflexivity.
  rewrite Hcol.
  assert (Hin : Py.in_list h0 (h0 :: hs) = true)
    by (apply FilterProps.in_list_true; left).
  rewrite Hin. cbn [snd]. rewrite first_column_values by done.
  rewrite (UniqueProps.plain_values_cons h0 rest rest hs).
  rewrite PyFacts.or_empty_Some. done.
Qed.

Lemma no_header_reads_the_header_as_data_witness :
  ("value" ∉ ([] : list string))
  ∧ observed scenario_e_fs "e.csv" None true
    = Py.strip "value" :: observed scenario_e_fs "e.csv" None false.
Proof.
  assert (H : "value" ∉ ([] : list string)) by apply not_elem_of_nil.
  split; [exact H|].
  destruct (no_header_reads_the_header_as_data scenario_e_fs "e.csv"
              scenario_e_file "value" [] [["B"]; ["a"]; ["b"]] None true st0
              eq_refl eq_refl H) as (vals & _ & _ & Hobs).
  exact Hobs.
Defined.

(** X18. Edge inputs of the extractor in header mode, when the reader
    does not fail: an empty file gives the empty result without error
    and without pulling a record; a file whose first line is blank
    always fails with [ValueError], naming the requested column, or
    "value" when none was requested, after pulling that line alone. *)
Theorem header_mode_edge_inputs
    (fsys : gmap string file) (input_csv : string) (f : file)
    (column : option string)
    (case_insensitive sort_values exactly_once : bool) (s : st) :
  fsys !! input_csv = Some f →
  fails (parse f (sniff_delimiter fsys input_csv ",")) = false →
  (records (parse f (sniff_delimiter fsys input_csv ",")) = [] →
   (read_unique_values fsys input_csv column false case_insensitive
                       sort_values exactly_once s).2 = inr []
   ∧ pulled (read_unique_values fsys input_csv column false case_insensitive
                                sort_values exactly_once s).1 = pulled s)
  ∧ (∀ rest,
       records (parse f (sniff_delimiter fsys input_csv ",")) = [] :: rest →
       read_unique_values fsys input_csv column false case_insensitive
                          sort_values exactly_once s
       = ({| pulled := S (pulled s); out_file := out_file s |},
          inl (ValueError (UniqueTool.or_value column) (Some [])))).
Proof.
  intros Hf Hfails. split.
  - intros Hrec.
    rewrite UniqueProps.read_unique_values_run, UniqueProps.accumulate_run.
    rewrite Hf. cbv zeta. rewrite Hrec, Hfails. simpl.
    split; [by destruct sort_values, exactly_once|lia].
  - intros rest Hrec.
    rewrite UniqueProps.read_unique_values_run, UniqueProps.accumulate_run.
    rewrite Hf. cbv zeta. rewrite Hrec.
    assert (Hcol : resolve_column column [] = UniqueTool.or_value column).
    { unfold resolve_column, UniqueTool.or_value. by destruct column. }
    rewrite Hcol.
    assert (Hin : Py.in_list (UniqueTool.or_value column) [] = false)
      by (apply FilterProps.in_list_false, not_elem_of_nil).
    rewrite Hin. reflexivity.
Qed.

Lemma header_mode_edge_inputs_witness :
  (read_unique_values {[ "empty.csv" := file_of_records [] ]} "empty.csv"
     (Some "sku") false false false false st0).2 = inr []
  ∧ read_unique_values {[ "blank.csv" := file_of_records [[]; ["a"]] ]}
      "blank.csv" None false false false false st0
    = ({| pulled := 1; out_file := None |},
       inl (ValueError "value" (Some []))).
Proof.
  split.
  - exact (proj1 (proj1 (header_mode_edge_inputs
             {[ "empty.csv" := file_of_records [] ]} "empty.csv"
             (file_of_records []) (Some "sku") false false false st0
             eq_refl eq_refl) eq_refl)).
  - exact (proj2 (header_mode_edge_inputs
             {[ "blank.csv" := file_of_records [[]; ["a"]] ]} "blank.csv"
             (file_of_records [[]; ["a"]]) None false false false st0
             eq_refl eq_refl) [["a"]] eq_refl).
Defined.

End UniqueExtras.
